(** * telegram-cowork-bridge: the Claude Code skill (skill/index.ts)

    A shallow embedding of the session bridge of [skill/index.ts] and of
    the message router it is composed with.

    Strings.  A JavaScript string is modelled by the Rocq [string] of its
    UTF-8 bytes.  Every operation the skill applies to strings
    (concatenation, [join], replacement of ASCII patterns) commutes with
    the encoding, and the command line reaches [/bin/sh -c] as these very
    bytes.  The only place where code points beyond ASCII matter is the
    class [\s] of the sanitizer, which is spelled out byte-wise below.
    Strings with an unpaired surrogate have no UTF-8 form and are left
    out.

    Effects.  The session table, the process table, the clock and the
    calls of [exec] and [kill] are the state of a small state-and-exception
    monad.  [claude_code_execute] is cut at its [await] into the part that
    builds and issues the command and the part that handles the outcome,
    so that other operations can run in between; the subprocess and
    [JSON.parse] are parameters. *)

From Stdlib Require Import ZArith Ascii String List Lia Bool.
From stdpp Require Import base option list gmap strings.

Local Open Scope string_scope.

(* ====================================================================== *)
(** ** Characters and string helpers *)
(* ====================================================================== *)

Definition BACKSLASH : ascii := "092"%char.
Definition DQUOTE    : ascii := "034"%char.
Definition DOLLAR    : ascii := "036"%char.
Definition BACKTICK  : ascii := "096"%char.
Definition BANG      : ascii := "033"%char.
Definition NEWLINE   : ascii := "010"%char.
Definition DASH      : ascii := "045"%char.

(** The one-character string [c]. *)
Definition chr (c : ascii) : string := String c "".

(** A double-quote character, as a string. *)
Definition DQ : string := chr DQUOTE.

(** [s] between double quotes. *)
Definition quoted (s : string) : string := DQ +:+ s +:+ DQ.

(** [Array.prototype.join] on an array of strings. *)
Fixpoint join (sep : string) (xs : list string) : string :=
  match xs with
  | [] => ""
  | [x] => x
  | x :: rest => x +:+ sep +:+ join sep rest
  end.

(** [occurs_in needle s]: [needle] is a substring of [s]. *)
Fixpoint occurs_in (needle s : string) : bool :=
  String.prefix needle s ||
  match s with
  | "" => false
  | String _ s' => occurs_in needle s'
  end.

(** [mem_char c s]: the character [c] occurs in [s]. *)
Fixpoint mem_char (c : ascii) (s : string) : bool :=
  match s with
  | "" => false
  | String d s' => Ascii.eqb c d || mem_char c s'
  end.

(* ====================================================================== *)
(** ** Utility functions of the skill *)
(* ====================================================================== *)

(** [str.replace(/c/g, r)] for a one-character pattern [c]: every
    occurrence of [c] is replaced by the text [r]. *)
Fixpoint replace_char (c : ascii) (r : string) (s : string) : string :=
  match s with
  | "" => ""
  | String d s' =>
      if Ascii.eqb d c then r +:+ replace_char c r s'
      else String d (replace_char c r s')
  end.

(** index.ts, [escapeForShell]: five global replacements, in this order. *)
Definition escapeForShell (str : string) : string :=
  replace_char BANG (String BACKSLASH (chr BANG))
    (replace_char BACKTICK (String BACKSLASH (chr BACKTICK))
      (replace_char DOLLAR (String BACKSLASH (chr DOLLAR))
        (replace_char DQUOTE (String BACKSLASH (chr DQUOTE))
          (replace_char BACKSLASH (String BACKSLASH (chr BACKSLASH)) str)))).

(** ASCII lower-casing.  With the [i] flag and no [u] flag a pattern
    character below 128 matches exactly itself and, for a letter, its
    other case: the canonicalisation never maps a character from 128 up
    to one below 128. *)
Definition lower (c : ascii) : ascii :=
  let n := nat_of_ascii c in
  if (65 <=? n)%nat && (n <=? 90)%nat then ascii_of_nat (n + 32) else c.

(** [match_ci pat s]: the literal [pat] matches at the head of [s],
    letter case ignored; the result is the length of the match. *)
Fixpoint match_ci (pat s : string) : option nat :=
  match pat with
  | "" => Some 0%nat
  | String p pat' =>
      match s with
      | "" => None
      | String c s' =>
          if Ascii.eqb (lower p) (lower c) then S <$> match_ci pat' s' else None
      end
  end.

(** The class [\s], by the bytes of the white-space characters: TAB, LF,
    VT, FF, CR and SP in one byte; U+00A0 in two; U+1680, U+2000..U+200A,
    U+2028, U+2029, U+202F, U+205F, U+3000 and U+FEFF in three. *)
Definition ws1 (c : ascii) : bool :=
  let n := nat_of_ascii c in
  ((9 <=? n) && (n <=? 13) || (n =? 32))%nat.

Definition ws2 (c c1 : ascii) : bool :=
  ((nat_of_ascii c =? 194) && (nat_of_ascii c1 =? 160))%nat.

Definition ws3 (c c1 c2 : ascii) : bool :=
  let n := nat_of_ascii c in
  let n1 := nat_of_ascii c1 in
  let n2 := nat_of_ascii c2 in
  ((n =? 225) && (n1 =? 154) && (n2 =? 128)
   || (n =? 226) && (n1 =? 128)
      && ((128 <=? n2) && (n2 <=? 138) || (n2 =? 168) || (n2 =? 169) || (n2 =? 175))
   || (n =? 226) && (n1 =? 129) && (n2 =? 159)
   || (n =? 227) && (n1 =? 128) && (n2 =? 128)
   || (n =? 239) && (n1 =? 187) && (n2 =? 191))%nat.

(** The class [\s] at the head of [s], as the number of bytes of the
    white-space character found there. *)
Definition ws_len (s : string) : option nat :=
  match s with
  | "" => None
  | String c s1 =>
      if ws1 c then Some 1%nat
      else match s1 with
      | "" => None
      | String c1 s2 =>
          if ws2 c c1 then Some 2%nat
          else match s2 with
          | "" => None
          | String c2 _ => if ws3 c c1 c2 then Some 3%nat else None
          end
      end
  end.

(** The pattern [/-p\s/i] at the head of [s]. *)
Definition match_dash_p_ws (s : string) : option nat :=
  match s with
  | String d (String p rest) =>
      if Ascii.eqb d DASH && Ascii.eqb (lower p) "p"%char
      then (fun n => S (S n)) <$> ws_len rest
      else None
  | _ => None
  end.

(** [s.replace(re, '')] for a global pattern given by its matcher [m]:
    the scan goes left to right; where the pattern matches, the match is
    dropped and the scan resumes behind it.  [skip] counts the characters
    of the current match still to be dropped. *)
Fixpoint strip (m : string -> option nat) (skip : nat) (s : string) : string :=
  match s with
  | "" => ""
  | String c s' =>
      match skip with
      | S k => strip m k s'
      | O =>
          match m s with
          | Some (S k) => strip m k s'
          | _ => String c (strip m 0 s')
          end
      end
  end.

Definition remove_all (m : string -> option nat) (s : string) : string :=
  strip m 0 s.

(** index.ts, [sanitizePrompt]. *)
Definition sanitizePrompt (prompt : string) : string :=
  let sanitized :=
    remove_all match_dash_p_ws
      (remove_all (match_ci "--dangerously")
        (remove_all (match_ci "--allowedTools") prompt)) in
  sanitized.

(* ====================================================================== *)
(** ** JavaScript values *)
(* ====================================================================== *)

(** The values [JSON.parse] can produce, and [undefined].  A number is
    kept as the text [Number::toString] gives for it: the skill observes
    a number only through its truthiness and through its text in a
    template literal, and both are functions of that text (the text of
    both zeros is [0]; [JSON.parse] yields no [NaN]). *)
#[warnings="-register-all"]
Inductive value : Type :=
| VUndefined
| VNull
| VBool (b : bool)
| VNumber (text : string)
| VString (s : string)
| VArray (elems : list value)
| VObject (props : list (string * value)).

(** ToBoolean. *)
Definition truthy (v : value) : bool :=
  match v with
  | VUndefined | VNull => false
  | VBool b => b
  | VNumber text => negb (String.eqb text "0")
  | VString s => negb (String.eqb s "")
  | VArray _ | VObject _ => true
  end.

(** [a || b]. *)
Definition or_else (a b : value) : value := if truthy a then a else b.

(** What a [throw] carries: an error object with its [message]. *)
Record Error := { message : string }.

(** How an evaluation completes. *)
Inductive Completion (A : Type) : Type :=
| Normal (a : A)
| Throw (e : Error).
Arguments Normal {A} a.
Arguments Throw {A} e.

(** The own property [key] of an object built by [JSON.parse], if it has
    one; a later binding of a repeated key wins. *)
Fixpoint own_property (props : list (string * value)) (key : string) : option value :=
  match props with
  | [] => None
  | (k, v) :: rest =>
      match own_property rest key with
      | Some found => Some found
      | None => if String.eqb k key then Some v else None
      end
  end.

(** ToString, as a template literal applies it.  An array is the join of
    its elements by commas, [null] and [undefined] elements giving the
    empty text.  An object is converted through its [toString] and then
    its [valueOf]: an object built by [JSON.parse] has [Object.prototype]
    behind it, whose [toString] gives [[object Object]]; but when the
    object has an own property [toString], which JSON cannot make a
    function, that one is found and skipped, [valueOf] gives no primitive
    either (an own one is no function, the inherited one returns the
    object), and the conversion throws a TypeError.  The conversion of an
    array throws when that of one of its elements does. *)
Fixpoint ToString (v : value) : Completion string :=
  match v with
  | VUndefined => Normal "undefined"
  | VNull => Normal "null"
  | VBool true => Normal "true"
  | VBool false => Normal "false"
  | VNumber text => Normal text
  | VString s => Normal s
  | VArray elems =>
      let elt (x : value) : Completion string :=
        match x with
        | VUndefined | VNull => Normal ""
        | _ => ToString x
        end in
      (fix go (l : list value) : Completion string :=
         match l with
         | [] => Normal ""
         | [x] => elt x
         | x :: rest =>
             match elt x with
             | Throw e => Throw e
             | Normal head =>
                 match go rest with
                 | Throw e => Throw e
                 | Normal tail => Normal (head +:+ "," +:+ tail)
                 end
             end
         end) elems
  | VObject props =>
      match own_property props "toString" with
      | Some _ => Throw {| message := "Cannot convert object to primitive value" |}
      | None => Normal "[object Object]"
      end
  end.

(** [JSON.parse] is the host's; the skill is verified for any. *)
Class JsonParser := JSON_parse : string -> option value.

(* ====================================================================== *)
(** ** Types of the skill *)
(* ====================================================================== *)

Module ClaudeCodeResult.
Record t := {
  success : bool;
  output : value;
  sessionId : option value;     (* [None]: the key is absent *)
  error : option string;        (* [None]: the key is absent *)
  executionTime : option Z
}.
End ClaudeCodeResult.

(** A number given as an option: a whole number of milliseconds, or
    [NaN], which is falsy like zero.  Numbers with a fraction and the
    infinities, which are truthy and passed on as they are, are left out. *)
Inductive number : Type :=
| NaN
| Finite (n : Z).

Module ExecuteOptions.
Record t := {
  newSession : option bool;
  workingDir : option string;
  allowedTools : option (list string);
  timeout : option number;
  appendSystemPrompt : option string
}.
(** The default argument [options = {}]. *)
Definition empty : t :=
  {| newSession := None; workingDir := None; allowedTools := None;
     timeout := None; appendSystemPrompt := None |}.
End ExecuteOptions.

Module SessionInfo.
Record t := {
  sessionId : value;
  startedAt : Z;
  lastActivity : Z;
  messageCount : Z
}.
End SessionInfo.

(** The options object handed to [exec]. *)
Module ExecOptions.
Record t := {
  maxBuffer : Z;
  timeout : Z;
  env : gmap string string;
  cwd : option string
}.
End ExecOptions.

(** A child process handle, by its process identifier. *)
Definition ChildProcess : Type := nat.

(** What awaiting [execAsync] gives: the promise resolves with the two
    output streams, or rejects (non-zero exit, time-out, kill, buffer
    overflow) with an error. *)
Inductive ExecOutcome : Type :=
| Resolved (stdout stderr : string)
| Rejected (e : Error).

(** The subprocess boundary: for a command and its options, the outcome
    and the time in milliseconds it took. *)
Definition Exec : Type := string -> ExecOptions.t -> ExecOutcome * Z.

(* ====================================================================== *)
(** ** The state of the bridge *)
(* ====================================================================== *)

Record Bridge := {
  sessions : gmap string SessionInfo.t;
  activeProcesses : gmap string ChildProcess;
  clock : Z;                                    (* what [Date.now()] reads *)
  process_env : gmap string string;
  spawned : list (string * ExecOptions.t);      (* calls of [exec], oldest first *)
  signalled : list (ChildProcess * string)      (* signals sent by [kill] *)
}.

Definition set_sessions (f : gmap string SessionInfo.t -> gmap string SessionInfo.t)
    (w : Bridge) : Bridge :=
  {| sessions := f (sessions w); activeProcesses := activeProcesses w;
     clock := clock w; process_env := process_env w;
     spawned := spawned w; signalled := signalled w |}.

Definition set_activeProcesses (f : gmap string ChildProcess -> gmap string ChildProcess)
    (w : Bridge) : Bridge :=
  {| sessions := sessions w; activeProcesses := f (activeProcesses w);
     clock := clock w; process_env := process_env w;
     spawned := spawned w; signalled := signalled w |}.

Definition set_clock (f : Z -> Z) (w : Bridge) : Bridge :=
  {| sessions := sessions w; activeProcesses := activeProcesses w;
     clock := f (clock w); process_env := process_env w;
     spawned := spawned w; signalled := signalled w |}.

Definition add_spawned (c : string * ExecOptions.t) (w : Bridge) : Bridge :=
  {| sessions := sessions w; activeProcesses := activeProcesses w;
     clock := clock w; process_env := process_env w;
     spawned := spawned w ++ [c]; signalled := signalled w |}.

Definition add_signalled (k : ChildProcess * string) (w : Bridge) : Bridge :=
  {| sessions := sessions w; activeProcesses := activeProcesses w;
     clock := clock w; process_env := process_env w;
     spawned := spawned w; signalled := signalled w ++ [k] |}.

(** The module as loaded: both tables empty. *)
Definition initial (t0 : Z) (env : gmap string string) : Bridge :=
  {| sessions := ∅; activeProcesses := ∅; clock := t0; process_env := env;
     spawned := []; signalled := [] |}.

(** Computations over the bridge: a state transformer that completes
    normally or throws. *)
Definition M (A : Type) : Type := Bridge -> Completion A * Bridge.

#[global] Instance M_ret : MRet M := fun A a w => (Normal a, w).
#[global] Instance M_bind : MBind M := fun A B f m w =>
  match m w with
  | (Normal a, w') => f a w'
  | (Throw e, w') => (Throw e, w')
  end.

Definition throw {A} (e : Error) : M A := fun w => (Throw e, w).

(** [try { body } catch (error) { handler }]. *)
Definition try_catch {A} (body : M A) (handler : Error -> M A) : M A := fun w =>
  match body w with
  | (Normal a, w') => (Normal a, w')
  | (Throw e, w') => handler e w'
  end.

(** A pure evaluation, which can throw, inside a computation. *)
Definition lift {A} (c : Completion A) : M A := fun w => (c, w).

Definition get {A} (f : Bridge -> A) : M A := fun w => (Normal (f w), w).
Definition modify (f : Bridge -> Bridge) : M unit := fun w => (Normal tt, f w).

Definition Date_now : M Z := get clock.

(** [v.key] for the keys the skill reads ([sessionId], [session_id],
    [result], [content], [response]): reading a property of [null] or
    [undefined] throws a TypeError; primitives and arrays have no such
    property. *)
Definition Get (v : value) (key : string) : M value :=
  match v with
  | VUndefined =>
      throw {| message := "Cannot read properties of undefined (reading '" +:+ key +:+ "')" |}
  | VNull =>
      throw {| message := "Cannot read properties of null (reading '" +:+ key +:+ "')" |}
  | VObject props => mret (default VUndefined (own_property props key))
  | _ => mret VUndefined
  end.

(* ====================================================================== *)
(** ** Session management *)
(* ====================================================================== *)

Definition DEFAULT_TOOLS : list string :=
  ["Read"; "Write"; "Edit"; "Bash"; "Glob"; "Grep"; "WebFetch"; "WebSearch"].

Definition DEFAULT_TIMEOUT : Z := 300000.
Definition MAX_BUFFER : Z := 10 * 1024 * 1024.

(** Truthiness of an optional string, number and boolean property. *)
Definition truthy_string (o : option string) : bool :=
  match o with
  | Some s => negb (String.eqb s "")
  | None => false
  end.

Definition truthy_flag (o : option bool) : bool := default false o.

(* ====================================================================== *)
(** ** Core execution function *)
(* ====================================================================== *)

(** The command line of [claude_code_execute] before the session clause:
    lines 85 to 94. *)
Definition base_command (cleanPrompt : string) (options : ExecuteOptions.t) : string :=
  let tools := default DEFAULT_TOOLS (ExecuteOptions.allowedTools options) in
  let toolsArg := "--allowedTools " +:+ DQ +:+ join "," tools +:+ DQ in
  let cmd := "claude -p " +:+ DQ +:+ escapeForShell cleanPrompt +:+ DQ
             +:+ " --output-format json " +:+ toolsArg in
  match ExecuteOptions.appendSystemPrompt options with
  | Some text =>
      if negb (String.eqb text "")
      then cmd +:+ " --append-system-prompt " +:+ DQ +:+ escapeForShell text +:+ DQ
      else cmd
  | None => cmd
  end.

(** The session clause: lines 97 to 100.  The template literal converts
    the stored token to a string, which can throw. *)
Definition with_resume (cmd : string) (existingSession : option SessionInfo.t)
    (options : ExecuteOptions.t) : Completion string :=
  match existingSession with
  | Some session =>
      if negb (truthy_flag (ExecuteOptions.newSession options))
      then match ToString (SessionInfo.sessionId session) with
           | Normal token => Normal (cmd +:+ " --resume " +:+ token)
           | Throw e => Throw e
           end
      else Normal cmd
  | None => Normal cmd
  end.

(** The options of the subprocess: lines 103 to 116. *)
Definition exec_options (ambient : gmap string string) (options : ExecuteOptions.t)
    : ExecOptions.t :=
  {| ExecOptions.maxBuffer := MAX_BUFFER;
     ExecOptions.timeout :=
       match ExecuteOptions.timeout options with
       | Some (Finite t) => if (t =? 0)%Z then DEFAULT_TIMEOUT else t
       | Some NaN | None => DEFAULT_TIMEOUT
       end;
     ExecOptions.env := <["CLAUDE_CODE_OUTPUT_FORMAT" := "json"]> ambient;
     ExecOptions.cwd :=
       if truthy_string (ExecuteOptions.workingDir options)
       then ExecuteOptions.workingDir options else None |}.

(** A call of [claude_code_execute] suspended at its [await]: what the
    rest of the body still reads. *)
Record Suspended := {
  s_userId : string;
  s_startTime : Z;
  s_cmd : string;
  s_execOptions : ExecOptions.t
}.

(** [claude_code_execute] up to the [await]: the command is built and
    handed to [exec].  All of this but the call of [exec] stands before
    the [try] block, so what throws here is thrown by the call. *)
Definition execute_begin (prompt userId : string) (options : ExecuteOptions.t)
    : M Suspended :=
  startTime ← Date_now;
  let cleanPrompt := sanitizePrompt prompt in
  let cmd := base_command cleanPrompt options in
  existingSession ← get (fun w => sessions w !! userId);
  cmd ← lift (with_resume cmd existingSession options);
  ambient ← get process_env;
  let execOptions := exec_options ambient options in
  modify (add_spawned (cmd, execOptions));;
  mret {| s_userId := userId; s_startTime := startTime;
          s_cmd := cmd; s_execOptions := execOptions |}.

(** Lines 134 to 149: the session table is updated when a token came. *)
Definition update_session (userId : string) (sessionId : value) : M unit :=
  if truthy sessionId then
    now ← Date_now;
    existing ← get (fun w => sessions w !! userId);
    match existing with
    | Some session =>
        modify (set_sessions <[userId :=
          {| SessionInfo.sessionId := sessionId;
             SessionInfo.startedAt := SessionInfo.startedAt session;
             SessionInfo.lastActivity := now;
             SessionInfo.messageCount := (SessionInfo.messageCount session + 1)%Z |}]>)
    | None =>
        modify (set_sessions <[userId :=
          {| SessionInfo.sessionId := sessionId;
             SessionInfo.startedAt := now;
             SessionInfo.lastActivity := now;
             SessionInfo.messageCount := 1%Z |}]>)
    end
  else mret tt.

Section Execute.
Context `{JsonParser}.

(** The [try] block from the [await] on: lines 121 to 159. *)
Definition execute_try (k : Suspended) (settled : ExecOutcome)
    : M ClaudeCodeResult.t :=
  match settled with
  | Rejected e => throw e
  | Resolved stdout stderr =>
      let result :=
        match JSON_parse stdout with
        | Some parsed => parsed
        | None => VObject [("content", VString stdout)]
        end in
      a ← Get result "sessionId";
      sessionId ← (if truthy a then mret a else Get result "session_id");
      update_session (s_userId k) sessionId;;
      finished ← Date_now;
      let executionTime := (finished - s_startTime k)%Z in
      r ← Get result "result";
      c ← Get result "content";
      p ← Get result "response";
      mret {| ClaudeCodeResult.success := true;
              ClaudeCodeResult.output :=
                or_else (or_else (or_else r c) p) (VString stdout);
              ClaudeCodeResult.sessionId := Some sessionId;
              ClaudeCodeResult.error := None;
              ClaudeCodeResult.executionTime := Some executionTime |}
  end.

(** The [catch] block: lines 161 to 171. *)
Definition execute_catch (k : Suspended) (error : Error) : M ClaudeCodeResult.t :=
  finished ← Date_now;
  let executionTime := (finished - s_startTime k)%Z in
  mret {| ClaudeCodeResult.success := false;
          ClaudeCodeResult.output := VString "";
          ClaudeCodeResult.sessionId := None;
          ClaudeCodeResult.error :=
            Some (if String.eqb (message error) ""
                  then "Claude Code execution failed" else message error);
          ClaudeCodeResult.executionTime := Some executionTime |}.

(** The rest of [claude_code_execute] once the promise of [exec] has
    settled. *)
Definition execute_end (k : Suspended) (settled : ExecOutcome)
    : M ClaudeCodeResult.t :=
  try_catch (execute_try k settled) (execute_catch k).

(** Awaiting the subprocess: the clock moves on by the time it took. *)
Definition await (exec : Exec) (k : Suspended) : M ExecOutcome :=
  let '(settled, elapsed) := exec (s_cmd k) (s_execOptions k) in
  modify (set_clock (fun t => (t + elapsed)%Z));;
  mret settled.

(** index.ts, [claude_code_execute], run without another operation of
    the bridge in between.  A completion [Throw] is a rejection of the
    promise the function returns. *)
Definition claude_code_execute (exec : Exec) (prompt userId : string)
    (options : ExecuteOptions.t) : M ClaudeCodeResult.t :=
  k ← execute_begin prompt userId options;
  settled ← await exec k;
  execute_end k settled.

End Execute.

(* ====================================================================== *)
(** ** Status and control functions *)
(* ====================================================================== *)

(** index.ts, [claude_code_status]. *)
Definition claude_code_status (userId : string) : M (option SessionInfo.t) :=
  get (fun w => sessions w !! userId).

(** index.ts, [claude_code_cancel]. *)
Definition claude_code_cancel (userId : string) : M bool :=
  process ← get (fun w => activeProcesses w !! userId);
  match process with
  | Some child =>
      modify (add_signalled (child, "SIGTERM"));;
      modify (set_activeProcesses (delete userId));;
      mret true
  | None => mret false
  end.

(** index.ts, [claude_code_clear_session]: [Map.prototype.delete] tells
    whether the key was there. *)
Definition claude_code_clear_session (userId : string) : M bool :=
  present ← get (fun w => bool_decide (is_Some (sessions w !! userId)));
  modify (set_sessions (delete userId));;
  mret present.

(* ====================================================================== *)
(** ** The bridge as a transition system *)
(* ====================================================================== *)

(** The bridge together with the calls of [claude_code_execute] that are
    suspended at their [await]. *)
Record System := {
  bridge : Bridge;
  awaiting : list Suspended
}.

Section Transitions.
Context `{JsonParser}.

(** One step: an operation of the caller-facing API runs up to its end
    or, for [claude_code_execute], up to its [await]; a suspended call
    is resumed with the outcome of its subprocess; time passes. *)
Inductive step : System -> System -> Prop :=
| step_execute_begin s prompt userId options k w' :
    execute_begin prompt userId options (bridge s) = (Normal k, w') ->
    step s {| bridge := w'; awaiting := awaiting s ++ [k] |}
| step_execute_throws s prompt userId options e w' :
    execute_begin prompt userId options (bridge s) = (Throw e, w') ->
    step s {| bridge := w'; awaiting := awaiting s |}
| step_execute_end s i k settled c w' :
    awaiting s !! i = Some k ->
    execute_end k settled (bridge s) = (c, w') ->
    step s {| bridge := w'; awaiting := delete i (awaiting s) |}
| step_status s userId c w' :
    claude_code_status userId (bridge s) = (c, w') ->
    step s {| bridge := w'; awaiting := awaiting s |}
| step_cancel s userId c w' :
    claude_code_cancel userId (bridge s) = (c, w') ->
    step s {| bridge := w'; awaiting := awaiting s |}
| step_clear_session s userId c w' :
    claude_code_clear_session userId (bridge s) = (c, w') ->
    step s {| bridge := w'; awaiting := awaiting s |}
| step_time s elapsed :
    (0 <= elapsed)%Z ->
    step s {| bridge := set_clock (fun t => (t + elapsed)%Z) (bridge s);
              awaiting := awaiting s |}.

Inductive reachable : System -> Prop :=
| reachable_initial t0 env :
    reachable {| bridge := initial t0 env; awaiting := [] |}
| reachable_step s s' :
    reachable s -> step s s' -> reachable s'.

End Transitions.

(* ====================================================================== *)
(** ** Derived notions *)
(* ====================================================================== *)

(** The command line [claude_code_execute] builds in state [w], or the
    error thrown while building it. *)
Definition command (w : Bridge) (prompt userId : string) (options : ExecuteOptions.t)
    : Completion string :=
  with_resume (base_command (sanitizePrompt prompt) options)
              (sessions w !! userId) options.

(** What the [try] block binds to [result]. *)
Definition parsed_result `{JsonParser} (stdout : string) : value :=
  match JSON_parse stdout with
  | Some parsed => parsed
  | None => VObject [("content", VString stdout)]
  end.

(** [result] has properties to read: it is neither [null] nor
    [undefined]. *)
Definition readable (v : value) : bool :=
  match v with
  | VUndefined | VNull => false
  | _ => true
  end.

(** [v.key] when it does not throw. *)
Definition property (v : value) (key : string) : value :=
  match v with
  | VObject props => default VUndefined (own_property props key)
  | _ => VUndefined
  end.

(** The token the [try] block extracts. *)
Definition extracted_token (result : value) : value :=
  or_else (property result "sessionId") (property result "session_id").

(** The invariant of a result value: a failure carries no output and a
    non-empty error text; a success carries no error. *)
Definition result_invariant (r : ClaudeCodeResult.t) : Prop :=
  (ClaudeCodeResult.success r = false ->
     ClaudeCodeResult.output r = VString ""
     /\ exists text, ClaudeCodeResult.error r = Some text /\ text <> "")
  /\ (ClaudeCodeResult.success r = true -> ClaudeCodeResult.error r = None).

(** The result of a completion, when it is normal. *)
Definition returned {A} (c : Completion A * Bridge) : option A :=
  match c.1 with
  | Normal a => Some a
  | Throw _ => None
  end.

(* ====================================================================== *)
(** ** Prompts in pieces *)
(* ====================================================================== *)

(** [lower] on every character. *)
Fixpoint lower_string (s : string) : string :=
  match s with
  | "" => ""
  | String c s' => String (lower c) (lower_string s')
  end.

(** A prompt cut into pieces: text without a dash, and occurrences of the
    three patterns of [sanitizePrompt]. *)
Inductive piece : Type :=
| Text (t : string)
| AllowedTools (f : string)
| Dangerously (f : string)
| DashP (p : ascii) (space : string).

(** [Text t]: [t] holds no dash.  [AllowedTools f], [Dangerously f]: [f]
    is the pattern up to letter case.  [DashP p space]: [p] is a letter p
    and [space] is exactly one white-space character. *)
Definition well_formed (x : piece) : bool :=
  match x with
  | Text t => negb (mem_char DASH t)
  | AllowedTools f => String.eqb (lower_string f) "--allowedtools"
  | Dangerously f => String.eqb (lower_string f) "--dangerously"
  | DashP p space =>
      Ascii.eqb (lower p) "p"%char
      && bool_decide (ws_len space = Some (String.length space))
  end.

(** The text of a piece in the prompt. *)
Definition text_of (x : piece) : string :=
  match x with
  | Text t => t
  | AllowedTools f => f
  | Dangerously f => f
  | DashP p space => String DASH (String p space)
  end.

(** The prompt the pieces make up. *)
Fixpoint render (xs : list piece) : string :=
  match xs with
  | [] => ""
  | x :: rest => text_of x +:+ render rest
  end.

(** The text pieces alone. *)
Fixpoint kept (xs : list piece) : string :=
  match xs with
  | [] => ""
  | Text t :: rest => t +:+ kept rest
  | _ :: rest => kept rest
  end.

(** The kind of a piece. *)
Definition is_AllowedTools (x : piece) : bool :=
  match x with AllowedTools _ => true | _ => false end.
Definition is_Dangerously (x : piece) : bool :=
  match x with Dangerously _ => true | _ => false end.
Definition is_DashP (x : piece) : bool :=
  match x with DashP _ _ => true | _ => false end.

(** The pattern of matcher [m] matches at no position of [s], whatever
    follows [s]. *)
Fixpoint inert (m : string -> option nat) (s : string) : Prop :=
  match s with
  | "" => True
  | String c s' => (forall rest, m (String c (s' +:+ rest)) = None) /\ inert m s'
  end.

(** The pattern of matcher [m] matches the whole of [s], whatever follows
    [s]. *)
Definition matched (m : string -> option nat) (s : string) : Prop :=
  s <> "" /\ forall rest, m (s +:+ rest) = Some (String.length s).

(** The pattern of matcher [m] begins with a dash. *)
Definition needs_dash (m : string -> option nat) : Prop :=
  forall c s, c <> DASH -> m (String c s) = None.

(* ====================================================================== *)
(** ** The shell's reading of the prompt argument *)
(* ====================================================================== *)

(** Not code of the skill: the reading of a double-quoted word by
    [/bin/sh], to which [exec] hands the command line (POSIX, Shell
    Command Language, 2.2.3), for the round trip of the prompt argument.
    [sh_dquoted s] reads [s] from behind the opening quote up to the
    closing quote; it gives the text of the argument and what follows the
    closing quote.  Inside double quotes a backslash quotes the next
    character only when that is a dollar sign, a backtick, a double quote,
    a backslash or a newline (the backslash is then removed, and the
    newline with it); before any other character it stands for itself.
    The result is [None] when the quote is not closed or when an unquoted
    dollar sign or backtick starts an expansion: the word is then no plain
    text. *)
Fixpoint sh_dquoted (s : string) : option (string * string) :=
  match s with
  | "" => None
  | String c s' =>
      if Ascii.eqb c DQUOTE then Some ("", s')
      else if Ascii.eqb c DOLLAR || Ascii.eqb c BACKTICK then None
      else if Ascii.eqb c BACKSLASH then
        match s' with
        | "" => None
        | String d s'' =>
            if Ascii.eqb d DOLLAR || Ascii.eqb d BACKTICK
               || Ascii.eqb d DQUOTE || Ascii.eqb d BACKSLASH
            then (fun r => (String d r.1, r.2)) <$> sh_dquoted s''
            else if Ascii.eqb d NEWLINE then sh_dquoted s''
            else (fun r => (String c (String d r.1), r.2)) <$> sh_dquoted s''
        end
      else (fun r => (String c r.1, r.2)) <$> sh_dquoted s'
  end.

(** What [escapeForShell] makes of one character. *)
Definition escape_char (c : ascii) : string :=
  if Ascii.eqb c BACKSLASH || Ascii.eqb c DQUOTE || Ascii.eqb c DOLLAR
     || Ascii.eqb c BACKTICK || Ascii.eqb c BANG
  then String BACKSLASH (chr c) else chr c.

(* ====================================================================== *)
(** ** The router *)
(* ====================================================================== *)

Module Router.

(** Modelled from the spec: the router ([bridge/routing.py], configured
    by [config/routing.json]), of which the repository shows only the
    call [router.route(message)] and the configuration in its README.
    Section 4.1 of the spec: two pattern sets, always direct and route to
    agent;
    how a pattern matches a text (keyword, substring or regular
    expression, letter case ignored) is a parameter, [matches]. *)
Record Config (Pattern : Type) := {
  always_direct : list Pattern;
  route_to_agent : list Pattern;
  fallback : bool
}.
Arguments always_direct {Pattern} _.
Arguments route_to_agent {Pattern} _.
Arguments fallback {Pattern} _.

Section Route.
Context {Pattern : Type} (matches : Pattern -> string -> bool).

Definition matches_any (patterns : list Pattern) (text : string) : bool :=
  existsb (fun pattern => matches pattern text) patterns.

(** Modelled from the spec: [Router.route], [true] for the external
    tool and [false] for direct handling.  A message that matches any
    always-direct pattern is handled directly whatever else it matches;
    otherwise a message that matches any route-to-agent pattern is
    routed; otherwise the configured fallback decides. *)
Definition route (config : Config Pattern) (text : string) : bool :=
  if matches_any (always_direct config) text then false
  else if matches_any (route_to_agent config) text then true
  else fallback config.

End Route.

(** Modelled from the spec: a pattern as the alternatives of keywords the
    README shows for [config/routing.json]; it matches a text in which one
    of its keywords occurs, letter case ignored. *)
Definition keyword_matches (keywords : list string) (text : string) : bool :=
  existsb (fun keyword => occurs_in (lower_string keyword) (lower_string text))
          keywords.

(** The routing configuration of the README; direct handling is the
    fallback. *)
Definition readme_config : Config (list string) :=
  {| always_direct := [["weather"]; ["time"]; ["simple question"]];
     route_to_agent := [["file"; "folder"; "directory"];
                        ["create"; "write"; "edit"; "modify"];
                        ["code"; "script"; "program"];
                        ["analyze"; "review"; "check"]];
     fallback := false |}.

End Router.

(* ====================================================================== *)
(** ** Examples *)
(* ====================================================================== *)

(** The reply of the external tool in the scenario of the spec, section
    8: an object with the result [done] and the session token [s-1]. *)
Definition done_s1 : string :=
  "{" +:+ quoted "result" +:+ ": " +:+ quoted "done" +:+ ", "
      +:+ quoted "sessionId" +:+ ": " +:+ quoted "s-1" +:+ "}".

(** A host parser for the examples: it knows the value of [JSON.parse]
    at [done_s1] and at [null] and takes every other text for malformed.
    The examples feed it these two texts and texts that are no JSON. *)
Definition example_parse : JsonParser := fun text =>
  if String.eqb text done_s1
  then Some (VObject [("result", VString "done"); ("sessionId", VString "s-1")])
  else if String.eqb text "null" then Some VNull
  else None.

(** Subprocesses for the examples: one that prints the reply [done_s1],
    one that prints plain text, one that fails; each takes 40 ms. *)
Definition exec_done : Exec := fun _ _ => (Resolved done_s1 "", 40%Z).
Definition exec_plain : Exec := fun _ _ => (Resolved "Hello, world" "", 40%Z).
Definition exec_failing : Exec :=
  fun cmd _ => (Rejected {| message := "Command failed: " +:+ cmd |}, 40%Z).

(** The state after user [u1] has sent a first request and the external
    tool has answered [done_s1]. *)
Definition after_first_call : Bridge :=
  (claude_code_execute (H := example_parse) exec_done
     "create a file report.txt" "u1" ExecuteOptions.empty (initial 0 ∅)).2.


(** The tail of the command line for the default tools. *)
Definition default_tools_arg : string :=
  " --output-format json --allowedTools "
  +:+ quoted "Read,Write,Edit,Bash,Glob,Grep,WebFetch,WebSearch".

(** The call of user [u1] suspended at its [await], started in the
    initial state. *)
Definition first_call : Suspended :=
  {| s_userId := "u1"; s_startTime := 0;
     s_cmd := "claude -p " +:+ quoted "create a file report.txt"
              +:+ default_tools_arg;
     s_execOptions := exec_options ∅ ExecuteOptions.empty |}.

(** A state with the call of [u1] in flight. *)
Definition one_call_in_flight : System :=
  {| bridge := (execute_begin "create a file report.txt" "u1"
                  ExecuteOptions.empty (initial 0 ∅)).2;
     awaiting := [first_call] |}.

(** The state once that call has completed with the reply [done_s1]. *)
Definition one_call_completed : System :=
  {| bridge := (execute_end (H := example_parse) first_call
                  (Resolved done_s1 "") (bridge one_call_in_flight)).2;
     awaiting := [] |}.

(** The options [{ allowedTools: tools }]. *)
Definition only_tools (tools : list string) : ExecuteOptions.t :=
  {| ExecuteOptions.newSession := None;
     ExecuteOptions.workingDir := None;
     ExecuteOptions.allowedTools := Some tools;
     ExecuteOptions.timeout := None;
     ExecuteOptions.appendSystemPrompt := None |}.

(* ====================================================================== *)
(** ** Notions for the session table and the calls of exec *)
(* ====================================================================== *)

(** The record that lines 136 to 148 leave for the user: an existing
    record keeps its start time and counts one message more, a new
    record starts now with one message. *)
Definition next_session (existing : option SessionInfo.t) (sessionId : value)
    (now : Z) : SessionInfo.t :=
  match existing with
  | Some session =>
      {| SessionInfo.sessionId := sessionId;
         SessionInfo.startedAt := SessionInfo.startedAt session;
         SessionInfo.lastActivity := now;
         SessionInfo.messageCount := (SessionInfo.messageCount session + 1)%Z |}
  | None =>
      {| SessionInfo.sessionId := sessionId;
         SessionInfo.startedAt := now;
         SessionInfo.lastActivity := now;
         SessionInfo.messageCount := 1%Z |}
  end.

(** A session record as the bridge keeps it at time [now]: a token that
    is truthy, at least one message, and times in order. *)
Definition session_ok (now : Z) (info : SessionInfo.t) : Prop :=
  truthy (SessionInfo.sessionId info) = true
  /\ (1 <= SessionInfo.messageCount info)%Z
  /\ (SessionInfo.startedAt info <= SessionInfo.lastActivity info)%Z
  /\ (SessionInfo.lastActivity info <= now)%Z.

(** A call of [exec] under the bounds of the skill: the command runs
    [claude -p], the output buffer is the fixed one, the time-out is not
    zero (zero would mean none), and the environment forces the JSON
    output format. *)
Definition bounded_call (call : string * ExecOptions.t) : Prop :=
  String.prefix "claude -p " call.1 = true
  /\ ExecOptions.maxBuffer call.2 = MAX_BUFFER
  /\ ExecOptions.timeout call.2 <> 0%Z
  /\ ExecOptions.env call.2 !! "CLAUDE_CODE_OUTPUT_FORMAT" = Some "json".

(** A host parser for the examples with replies that are JSON but no
    object: it knows the value of [JSON.parse] at [42] and takes every
    other text for malformed. *)
Definition scalar_parse : JsonParser := fun text =>
  if String.eqb text "42" then Some (VNumber "42") else None.

(** The state in which user [u1] has a session and a second call of
    theirs is in flight. *)
Definition second_call : Suspended :=
  {| s_userId := "u1"; s_startTime := 40;
     s_cmd := "claude -p " +:+ quoted "what's in that file now"
              +:+ default_tools_arg +:+ " --resume s-1";
     s_execOptions := exec_options ∅ ExecuteOptions.empty |}.

(** A reply whose token is an object with an own property [toString]:
    the object has no text form. *)
Definition poison_reply : string :=
  "{" +:+ quoted "sessionId" +:+ ": {" +:+ quoted "toString" +:+ ": 1}}".

(** A host parser for the example with that reply: it knows the value of
    [JSON.parse] at [poison_reply] and takes every other text for
    malformed. *)
Definition poison_parse : JsonParser := fun text =>
  if String.eqb text poison_reply
  then Some (VObject [("sessionId", VObject [("toString", VNumber "1")])])
  else None.

(** A subprocess that prints [poison_reply]. *)
Definition exec_poison : Exec := fun _ _ => (Resolved poison_reply "", 40%Z).

(** The state after user [u1] has sent a request and the external tool
    has answered [poison_reply]. *)
Definition after_poisoned_call : Bridge :=
  (claude_code_execute (H := poison_parse) exec_poison
     "hello" "u1" ExecuteOptions.empty (initial 0 ∅)).2.

(* ====================================================================== *)
(** * Properties *)
(* ====================================================================== *)

(* ====================================================================== *)
(** ** Running the operations *)
(* ====================================================================== *)

(** [claude_code_execute] up to its [await]: when the command gets
    built, it is handed to [exec] and the call is suspended; when building
    it throws, the call throws and the bridge is as before. *)
Lemma execute_begin_cases prompt userId options w :
  execute_begin prompt userId options w =
    match command w prompt userId options with
    | Normal cmd =>
        (Normal {| s_userId := userId; s_startTime := clock w;
                   s_cmd := cmd;
                   s_execOptions := exec_options (process_env w) options |},
         add_spawned (cmd, exec_options (process_env w) options) w)
    | Throw e => (Throw e, w)
    end.
Proof.
  unfold execute_begin, command. cbv [mbind M_bind Date_now get lift modify].
  destruct (with_resume _ _ _); reflexivity.
Qed.

Lemma execute_begin_run prompt userId options w cmd :
  command w prompt userId options = Normal cmd ->
  execute_begin prompt userId options w =
    (Normal {| s_userId := userId; s_startTime := clock w;
               s_cmd := cmd;
               s_execOptions := exec_options (process_env w) options |},
     add_spawned (cmd, exec_options (process_env w) options) w).
Proof. intros Hcmd. rewrite execute_begin_cases, Hcmd. reflexivity. Qed.

(** Whatever [execute_begin] does, it writes nothing but the log of the
    calls of [exec]. *)
Lemma execute_begin_frame prompt userId options w c w' :
  execute_begin prompt userId options w = (c, w') ->
  sessions w' = sessions w /\ activeProcesses w' = activeProcesses w
  /\ signalled w' = signalled w /\ clock w' = clock w
  /\ process_env w' = process_env w.
Proof.
  rewrite execute_begin_cases.
  destruct (command w prompt userId options); intros [= _ <-]; repeat split.
Qed.

Lemma update_session_run userId sessionId w :
  exists w', update_session userId sessionId w = (Normal tt, w')
    /\ activeProcesses w' = activeProcesses w
    /\ signalled w' = signalled w
    /\ spawned w' = spawned w
    /\ clock w' = clock w
    /\ (truthy sessionId = false -> w' = w)
    /\ (truthy sessionId = true ->
        exists info, sessions w' = <[userId := info]> (sessions w)
                     /\ SessionInfo.sessionId info = sessionId).
Proof.
  unfold update_session. destruct (truthy sessionId) eqn:Ht.
  - cbv [mbind M_bind Date_now get modify]. cbn.
    destruct (sessions w !! userId) as [session|] eqn:Hs; cbn;
      eexists; (split; [reflexivity|]); repeat split; try discriminate;
      intros _; eexists; split; reflexivity.
  - exists w. repeat split; try reflexivity. discriminate.
Qed.

Lemma Get_readable v key w :
  readable v = true -> Get v key w = (Normal (property v key), w).
Proof. destruct v; (discriminate || reflexivity). Qed.

Lemma Get_unreadable v key w :
  readable v = false ->
  exists text, Get v key w = (Throw {| message := text |}, w) /\ text <> "".
Proof.
  destruct v; try discriminate; intros _; eexists; (split; [reflexivity|]);
    discriminate.
Qed.

Section Runs.
Context `{JsonParser}.

Lemma execute_try_rejected k e w :
  execute_try k (Rejected e) w = (Throw e, w).
Proof. reflexivity. Qed.

Lemma execute_try_unreadable k stdout stderr w :
  readable (parsed_result stdout) = false ->
  exists text, execute_try k (Resolved stdout stderr) w
               = (Throw {| message := text |}, w) /\ text <> "".
Proof.
  intros Hr. destruct (Get_unreadable _ "sessionId" w Hr) as (text & Hg & Hne).
  exists text. split; [|exact Hne].
  unfold execute_try. fold (parsed_result stdout).
  cbv [mbind M_bind]. rewrite Hg. reflexivity.
Qed.

Lemma execute_try_readable k stdout stderr w :
  readable (parsed_result stdout) = true ->
  exists w',
    update_session (s_userId k) (extracted_token (parsed_result stdout)) w
      = (Normal tt, w')
    /\ execute_try k (Resolved stdout stderr) w =
       (Normal {| ClaudeCodeResult.success := true;
                  ClaudeCodeResult.output :=
                    or_else (or_else (or_else
                        (property (parsed_result stdout) "result")
                        (property (parsed_result stdout) "content"))
                        (property (parsed_result stdout) "response"))
                      (VString stdout);
                  ClaudeCodeResult.sessionId :=
                    Some (extracted_token (parsed_result stdout));
                  ClaudeCodeResult.error := None;
                  ClaudeCodeResult.executionTime :=
                    Some (clock w - s_startTime k)%Z |}, w').
Proof.
  intros Hr.
  destruct (update_session_run (s_userId k)
              (extracted_token (parsed_result stdout)) w)
    as (w' & Hu & _ & _ & _ & Hc & _).
  exists w'. split; [exact Hu|].
  unfold execute_try. fold (parsed_result stdout).
  cbv [mbind M_bind]. rewrite (Get_readable _ _ _ Hr).
  assert (Hsid : (if truthy (property (parsed_result stdout) "sessionId")
                  then mret (property (parsed_result stdout) "sessionId")
                  else Get (parsed_result stdout) "session_id") w
                 = (Normal (extracted_token (parsed_result stdout)), w)).
  { unfold extracted_token, or_else.
    destruct (truthy (property (parsed_result stdout) "sessionId"));
      [reflexivity | apply Get_readable, Hr]. }
  rewrite Hsid, Hu. cbv [Date_now get]. rewrite !(Get_readable _ _ _ Hr).
  rewrite Hc. reflexivity.
Qed.

Lemma execute_catch_run k e w :
  execute_catch k e w =
    (Normal {| ClaudeCodeResult.success := false;
               ClaudeCodeResult.output := VString "";
               ClaudeCodeResult.sessionId := None;
               ClaudeCodeResult.error :=
                 Some (if String.eqb (message e) ""
                       then "Claude Code execution failed" else message e);
               ClaudeCodeResult.executionTime :=
                 Some (clock w - s_startTime k)%Z |}, w).
Proof. reflexivity. Qed.

Lemma catch_text_nonempty (text : string) :
  (if String.eqb text "" then "Claude Code execution failed" else text) <> "".
Proof.
  destruct (String.eqb text "") eqn:E; [discriminate|].
  intros ->. discriminate.
Qed.

End Runs.

Section Results.
Context `{JsonParser}.

(** However the promise settles, the rest of [claude_code_execute]
    completes normally with a result that satisfies the invariant, and it
    touches neither the process table nor any process. *)
Lemma execute_end_total k settled w :
  exists r w',
    execute_end k settled w = (Normal r, w')
    /\ result_invariant r
    /\ activeProcesses w' = activeProcesses w
    /\ signalled w' = signalled w
    /\ spawned w' = spawned w
    /\ (forall e, settled = Rejected e ->
          w' = w
          /\ ClaudeCodeResult.success r = false
          /\ ClaudeCodeResult.error r =
             Some (if String.eqb (message e) ""
                   then "Claude Code execution failed" else message e)).
Proof.
  unfold execute_end, try_catch. destruct settled as [stdout stderr | e].
  - destruct (readable (parsed_result stdout)) eqn:Hr.
    + destruct (execute_try_readable k stdout stderr w Hr) as (w' & Hu & ->).
      destruct (update_session_run (s_userId k)
                  (extracted_token (parsed_result stdout)) w)
        as (w'' & Hu' & Ha & Hs & Hp & _).
      rewrite Hu in Hu'. injection Hu' as <-.
      eexists _, w'. split; [reflexivity|].
      repeat split; try assumption; try discriminate.
    + destruct (execute_try_unreadable k stdout stderr w Hr) as (text & -> & Hne).
      rewrite execute_catch_run. eexists _, w. split; [reflexivity|].
      repeat split; try discriminate. cbn.
      eexists. split; [reflexivity|]. apply catch_text_nonempty.
  - rewrite execute_try_rejected, execute_catch_run.
    eexists _, w. split; [reflexivity|].
    split; [|split; [reflexivity|split; [reflexivity|split; [reflexivity|]]]].
    + split; [intros _; cbn | discriminate].
      split; [reflexivity|]. eexists. split; [reflexivity|].
      apply catch_text_nonempty.
    + intros e' [= <-]. repeat split.
Qed.

(** An uninterrupted run, when the command gets built, is [execute_end]
    on what [exec] answers for that command, one invocation later. *)
Lemma claude_code_execute_run (exec : Exec) prompt userId options w cmd :
  command w prompt userId options = Normal cmd ->
  claude_code_execute exec prompt userId options w =
    execute_end
      {| s_userId := userId; s_startTime := clock w;
         s_cmd := cmd;
         s_execOptions := exec_options (process_env w) options |}
      (exec cmd (exec_options (process_env w) options)).1
      (set_clock
         (fun t => (t + (exec cmd (exec_options (process_env w) options)).2)%Z)
         (add_spawned (cmd, exec_options (process_env w) options) w)).
Proof.
  intros Hcmd. unfold claude_code_execute. cbv [mbind M_bind].
  rewrite (execute_begin_run _ _ _ _ cmd Hcmd). unfold await. cbn [s_cmd s_execOptions].
  destruct (exec _ _) as [settled elapsed]. reflexivity.
Qed.

(** When building the command throws, the call throws: no subprocess is
    started and the bridge is as before. *)
Lemma claude_code_execute_throws (exec : Exec) prompt userId options w e :
  command w prompt userId options = Throw e ->
  claude_code_execute exec prompt userId options w = (Throw e, w).
Proof.
  intros Hcmd. unfold claude_code_execute. cbv [mbind M_bind].
  rewrite execute_begin_cases, Hcmd. reflexivity.
Qed.

(** Whenever a call returns a result, the result satisfies the
    invariant, and a subprocess that fails gives a failure. *)
Lemma returned_result_invariant (exec : Exec) prompt userId options w cmd :
  command w prompt userId options = Normal cmd ->
  exists r w',
    claude_code_execute exec prompt userId options w = (Normal r, w')
    /\ result_invariant r
    /\ (forall e,
          (exec cmd (exec_options (process_env w) options)).1 = Rejected e ->
          ClaudeCodeResult.success r = false
          /\ ClaudeCodeResult.output r = VString ""
          /\ ClaudeCodeResult.error r =
             Some (if String.eqb (message e) ""
                   then "Claude Code execution failed" else message e)).
Proof.
  intros Hcmd. rewrite (claude_code_execute_run _ _ _ _ _ cmd Hcmd).
  match goal with
  | |- context [execute_end ?k ?o ?w1] =>
      destruct (execute_end_total k o w1)
        as (r & w' & Hrun & Hinv & _ & _ & _ & Hrej)
  end.
  exists r, w'. split; [exact Hrun|]. split; [exact Hinv|].
  intros e He. destruct (Hrej e He) as (_ & Hs & Herr).
  split; [exact Hs|]. split; [|exact Herr].
  destruct Hinv as [Hfail _]. apply Hfail, Hs.
Qed.

End Results.

(** C4.  Every result [claude_code_execute] returns satisfies the result
    invariant, and once the subprocess has been started every outcome of
    it, a rejection included, is turned into such a result.  But the call
    can throw past its boundary: the session clause of the command is
    built before the [try] block, and turning the stored token into text
    throws when the token is an object with a property [toString] of its
    own.  A call throws exactly when its command cannot be built; it then
    starts no subprocess and leaves the bridge as it was.  After a reply
    [{"sessionId": {"toString": 1}}] has been stored for a user, every
    further call of that user throws a [TypeError], whatever the
    subprocess would do. *)
Theorem execute_throws_past_its_boundary `{JsonParser} :
  (forall (exec : Exec) prompt userId options w,
     match claude_code_execute exec prompt userId options w with
     | (Normal r, _) =>
         result_invariant r
         /\ exists cmd, command w prompt userId options = Normal cmd
     | (Throw e, w') =>
         w' = w /\ command w prompt userId options = Throw e
     end)
  /\ (forall k settled w,
        exists r w',
          execute_end k settled w = (Normal r, w')
          /\ result_invariant r
          /\ (forall e, settled = Rejected e -> ClaudeCodeResult.success r = false))
  /\ (exists r,
        claude_code_execute (H := poison_parse) exec_poison
          "hello" "u1" ExecuteOptions.empty (initial 0 ∅)
        = (Normal r, after_poisoned_call)
        /\ ClaudeCodeResult.success r = true)
  /\ (forall (exec : Exec) prompt options,
        truthy_flag (ExecuteOptions.newSession options) = false ->
        claude_code_execute (H := poison_parse) exec
          prompt "u1" options after_poisoned_call
        = (Throw {| message := "Cannot convert object to primitive value" |},
           after_poisoned_call)).
Proof.
  split; [|split; [|split]].
  - intros exec prompt userId options w.
    destruct (command w prompt userId options) as [cmd|e] eqn:Hcmd.
    + destruct (returned_result_invariant exec prompt userId options w cmd Hcmd)
        as (r & w' & -> & Hinv & _).
      split; [exact Hinv | exists cmd; reflexivity].
    + rewrite (claude_code_execute_throws _ _ _ _ _ e Hcmd). split; reflexivity.
  - intros k settled w.
    destruct (execute_end_total k settled w)
      as (r & w' & Hrun & Hinv & _ & _ & _ & Hrej).
    exists r, w'. split; [exact Hrun|]. split; [exact Hinv|].
    intros e He. destruct (Hrej e He) as (_ & Hs & _). exact Hs.
  - eexists. split; [|shelve]. unfold after_poisoned_call.
    vm_compute. reflexivity.
    Unshelve. reflexivity.
  - intros exec prompt options Hflag.
    apply (claude_code_execute_throws (H := poison_parse)).
    unfold command, with_resume.
    change (sessions after_poisoned_call !! "u1")
      with (Some (next_session None (VObject [("toString", VNumber "1")]) 40%Z)).
    rewrite Hflag. reflexivity.
Qed.

Section Sessions.
Context `{JsonParser}.

Lemma execute_end_resolved k stdout stderr w :
  readable (parsed_result stdout) = true ->
  exists w',
    execute_end k (Resolved stdout stderr) w =
       (Normal {| ClaudeCodeResult.success := true;
                  ClaudeCodeResult.output :=
                    or_else (or_else (or_else
                        (property (parsed_result stdout) "result")
                        (property (parsed_result stdout) "content"))
                        (property (parsed_result stdout) "response"))
                      (VString stdout);
                  ClaudeCodeResult.sessionId :=
                    Some (extracted_token (parsed_result stdout));
                  ClaudeCodeResult.error := None;
                  ClaudeCodeResult.executionTime :=
                    Some (clock w - s_startTime k)%Z |}, w')
    /\ (truthy (extracted_token (parsed_result stdout)) = false -> w' = w)
    /\ (truthy (extracted_token (parsed_result stdout)) = true ->
        exists info,
          sessions w' = <[s_userId k := info]> (sessions w)
          /\ SessionInfo.sessionId info = extracted_token (parsed_result stdout)).
Proof.
  intros Hr. destruct (execute_try_readable k stdout stderr w Hr) as (w' & Hu & Ht).
  exists w'. split.
  - unfold execute_end, try_catch. rewrite Ht. reflexivity.
  - destruct (update_session_run (s_userId k)
                (extracted_token (parsed_result stdout)) w)
      as (w2 & Hu' & _ & _ & _ & _ & Hsame & Hset).
    assert (w2 = w') as -> by congruence.
    split; assumption.
Qed.


End Sessions.


Section Continuity.
Context `{JsonParser}.

(** Every run whose command gets built hands exactly that command to
    [exec], once. *)
Lemma claude_code_execute_spawns (exec : Exec) prompt userId options w cmd :
  command w prompt userId options = Normal cmd ->
  spawned (claude_code_execute exec prompt userId options w).2 =
    (spawned w ++ [(cmd, exec_options (process_env w) options)])%list.
Proof.
  intros Hcmd. rewrite (claude_code_execute_run _ _ _ _ _ cmd Hcmd).
  match goal with
  | |- spawned (execute_end ?k ?o ?w1).2 = _ =>
      destruct (execute_end_total k o w1) as (r & w' & Hrun & _ & _ & _ & Hsp & _);
      rewrite Hrun; cbn [snd]; rewrite Hsp
  end.
  reflexivity.
Qed.


End Continuity.


Section Degraded.
Context `{JsonParser}.

(** C7.  When the subprocess completes without error and its standard
    output is not parseable as JSON, the call succeeds with the raw
    standard output as its output and without error, and no session is
    recorded or changed; this holds for a call resumed in any state of
    the bridge and for every uninterrupted run that got its subprocess
    started. *)
Theorem parse_degraded_is_success (stdout stderr : string) :
  JSON_parse stdout = None ->
  (forall k w, exists r w',
      execute_end k (Resolved stdout stderr) w = (Normal r, w')
      /\ ClaudeCodeResult.success r = true
      /\ ClaudeCodeResult.output r = VString stdout
      /\ ClaudeCodeResult.error r = None
      /\ w' = w)
  /\ (forall (exec : Exec) prompt userId options w cmd,
        command w prompt userId options = Normal cmd ->
        (exec cmd (exec_options (process_env w) options)).1
        = Resolved stdout stderr ->
        exists r w',
          claude_code_execute exec prompt userId options w = (Normal r, w')
          /\ ClaudeCodeResult.success r = true
          /\ ClaudeCodeResult.output r = VString stdout
          /\ ClaudeCodeResult.error r = None
          /\ sessions w' = sessions w).
Proof.
  intros Hparse.
  assert (Hres : parsed_result stdout = VObject [("content", VString stdout)]).
  { unfold parsed_result. rewrite Hparse. reflexivity. }
  assert (Hr : readable (parsed_result stdout) = true) by (rewrite Hres; reflexivity).
  assert (Hend : forall k w, exists r w',
             execute_end k (Resolved stdout stderr) w = (Normal r, w')
             /\ ClaudeCodeResult.success r = true
             /\ ClaudeCodeResult.output r = VString stdout
             /\ ClaudeCodeResult.error r = None
             /\ w' = w).
  { intros k w.
    destruct (execute_end_resolved k stdout stderr w Hr) as (w' & -> & Hsame & _).
    eexists _, w'. split; [reflexivity|]. cbn.
    split; [reflexivity|]. split; [|split; [reflexivity|]].
    - rewrite Hres. cbn. unfold or_else. cbn.
      destruct (String.eqb stdout "") eqn:E; cbn; rewrite ?E; reflexivity.
    - apply Hsame. rewrite Hres. reflexivity. }
  split; [exact Hend|].
  intros exec prompt userId options w cmd Hcmd Hexec.
  rewrite (claude_code_execute_run _ _ _ _ _ cmd Hcmd), Hexec.
  match goal with
  | |- context [execute_end ?k _ ?w1] =>
      destruct (Hend k w1) as (r & w' & -> & Hs & Ho & He & ->)
  end.
  exists r. eexists. split; [reflexivity|]. repeat split; assumption.
Qed.

End Degraded.

Lemma parse_degraded_is_success_witness :
  exists r w',
    claude_code_execute (H := example_parse) exec_plain
      "say hello" "u1" ExecuteOptions.empty (initial 0 ∅) = (Normal r, w')
    /\ ClaudeCodeResult.success r = true
    /\ ClaudeCodeResult.output r = VString "Hello, world"
    /\ ClaudeCodeResult.error r = None
    /\ sessions w' = sessions (initial 0 ∅).
Proof.
  exact (proj2 (parse_degraded_is_success (H := example_parse)
                  "Hello, world" "" eq_refl)
           exec_plain "say hello" "u1" ExecuteOptions.empty (initial 0 ∅)
           _ eq_refl eq_refl).
Defined.

(** C10.  When a Session record exists for the user,
    [claude_code_clear_session] returns [true] and removes it, leaving the
    records of the other users, and the call that follows immediately
    returns [false]; in every state the value returned tells whether a
    record existed. *)
Theorem clear_session_true_then_false (w : Bridge) (userId : string)
    (info : SessionInfo.t) :
  sessions w !! userId = Some info ->
  exists w1,
    claude_code_clear_session userId w = (Normal true, w1)
    /\ sessions w1 !! userId = None
    /\ (forall other, other <> userId -> sessions w1 !! other = sessions w !! other)
    /\ claude_code_clear_session userId w1 = (Normal false, w1)
    /\ (forall w0, exists w0',
          claude_code_clear_session userId w0
          = (Normal (bool_decide (is_Some (sessions w0 !! userId))), w0')
          /\ sessions w0' = delete userId (sessions w0)).
Proof.
  intros Hs. exists (set_sessions (delete userId) w).
  assert (Hgone : sessions (set_sessions (delete userId) w) !! userId = None)
    by apply lookup_delete_eq.
  split; [|split; [exact Hgone|split; [|split]]].
  - unfold claude_code_clear_session. cbv [mbind M_bind get modify].
    rewrite Hs. rewrite bool_decide_eq_true_2 by (eexists; reflexivity).
    reflexivity.
  - intros other Hne. cbn. apply lookup_delete_ne. congruence.
  - unfold claude_code_clear_session. cbv [mbind M_bind get modify].
    rewrite Hgone. rewrite bool_decide_eq_false_2 by (intros [? [=]]).
    f_equal. destruct w; unfold set_sessions; cbn. f_equal.
    apply delete_delete_eq.
  - intros w0. eexists. split; reflexivity.
Qed.

Lemma clear_session_true_then_false_witness :
  exists w1,
    claude_code_clear_session "u1" after_first_call = (Normal true, w1)
    /\ sessions w1 !! "u1" = None
    /\ claude_code_clear_session "u1" w1 = (Normal false, w1).
Proof.
  destruct (clear_session_true_then_false after_first_call "u1"
              {| SessionInfo.sessionId := VString "s-1";
                 SessionInfo.startedAt := 40%Z;
                 SessionInfo.lastActivity := 40%Z;
                 SessionInfo.messageCount := 1%Z |} eq_refl)
    as (w1 & H1 & H2 & _ & H3 & _).
  exists w1. split; [exact H1|]. split; [exact H2 | exact H3].
Defined.

Section Invariant.
Context `{JsonParser}.

(** No operation of the bridge writes the process table or signals a
    process while the table is empty. *)
Lemma step_keeps_processes_empty s s' :
  step s s' ->
  activeProcesses (bridge s) = ∅ /\ signalled (bridge s) = [] ->
  activeProcesses (bridge s') = ∅ /\ signalled (bridge s') = [].
Proof.
  intros Hstep [Hact Hsig].
  destruct Hstep as [s prompt userId options k w' Hb
                    | s prompt userId options e w' Hb
                    | s i k settled c w' _ He
                    | s userId c w' Hs
                    | s userId c w' Hc
                    | s userId c w' Hc
                    | s elapsed _]; cbn [bridge].
  - destruct (execute_begin_frame _ _ _ _ _ _ Hb) as (_ & -> & -> & _).
    split; assumption.
  - destruct (execute_begin_frame _ _ _ _ _ _ Hb) as (_ & -> & -> & _).
    split; assumption.
  - destruct (execute_end_total k settled (bridge s))
      as (r & w1 & Hrun & _ & Ha & Hk & _).
    rewrite Hrun in He. injection He as _ <-. rewrite Ha, Hk. split; assumption.
  - injection Hs as _ <-. split; assumption.
  - unfold claude_code_cancel in Hc. cbv [mbind M_bind get] in Hc.
    rewrite Hact, lookup_empty in Hc. injection Hc as _ <-. split; assumption.
  - injection Hc as _ <-. split; assumption.
  - split; assumption.
Qed.

(** C9.  In every reachable state of the bridge the in-flight process
    table is empty and no process has been signalled; hence
    [claude_code_cancel] returns [false] for every user and leaves the
    state as it is. *)
Theorem active_processes_always_empty s :
  reachable s ->
  activeProcesses (bridge s) = ∅
  /\ signalled (bridge s) = []
  /\ forall userId,
       claude_code_cancel userId (bridge s) = (Normal false, bridge s).
Proof.
  intros Hreach.
  assert (Hinv : activeProcesses (bridge s) = ∅ /\ signalled (bridge s) = []).
  { induction Hreach as [t0 env | s s' _ IH Hstep].
    - split; reflexivity.
    - exact (step_keeps_processes_empty s s' Hstep IH). }
  destruct Hinv as [Hact Hsig]. split; [exact Hact|]. split; [exact Hsig|].
  intros userId. unfold claude_code_cancel. cbv [mbind M_bind get].
  rewrite Hact, lookup_empty. reflexivity.
Qed.

End Invariant.

Lemma active_processes_always_empty_witness :
  activeProcesses (bridge one_call_completed) = ∅
  /\ signalled (bridge one_call_completed) = []
  /\ forall userId,
       claude_code_cancel userId (bridge one_call_completed)
       = (Normal false, bridge one_call_completed).
Proof.
  apply (active_processes_always_empty (H := example_parse)).
  apply (reachable_step one_call_in_flight).
  - apply (reachable_step one_call_in_flight).
    + apply (reachable_step {| bridge := initial 0 ∅; awaiting := [] |}).
      * apply reachable_initial.
      * apply (step_execute_begin (H := example_parse)
                 {| bridge := initial 0 ∅; awaiting := [] |}
                 "create a file report.txt" "u1" ExecuteOptions.empty first_call).
        reflexivity.
    + apply (step_cancel (H := example_parse) one_call_in_flight "u1"
               (Normal false)).
      reflexivity.
  - apply (step_execute_end (H := example_parse) one_call_in_flight 0 first_call
             (Resolved done_s1 "")
             (Normal {| ClaudeCodeResult.success := true;
                        ClaudeCodeResult.output := VString "done";
                        ClaudeCodeResult.sessionId := Some (VString "s-1");
                        ClaudeCodeResult.error := None;
                        ClaudeCodeResult.executionTime := Some 0%Z |})).
    + reflexivity.
    + reflexivity.
Defined.

Lemma append_assoc (a b c : string) : (a +:+ b) +:+ c = a +:+ (b +:+ c).
Proof.
  induction a as [|x a IH]; [reflexivity|].
  change (String x ((a +:+ b) +:+ c) = String x (a +:+ (b +:+ c))).
  rewrite IH. reflexivity.
Qed.

Lemma append_empty_r (a : string) : a +:+ "" = a.
Proof.
  induction a as [|x a IH]; [reflexivity|].
  change (String x (a +:+ "") = String x a). rewrite IH. reflexivity.
Qed.

(** The command without session clause opens with the prompt argument,
    the output format and the tools argument, whatever follows. *)
Lemma base_command_shape cleanPrompt options :
  exists rest,
    base_command cleanPrompt options =
      "claude -p " +:+ quoted (escapeForShell cleanPrompt)
      +:+ " --output-format json --allowedTools "
      +:+ quoted (join "," (default DEFAULT_TOOLS (ExecuteOptions.allowedTools options)))
      +:+ rest.
Proof.
  unfold base_command, quoted.
  change " --output-format json --allowedTools "
    with (" --output-format json " +:+ "--allowedTools ").
  destruct (ExecuteOptions.appendSystemPrompt options) as [text|];
    [destruct (negb (String.eqb text ""))|].
  - eexists. rewrite !append_assoc. reflexivity.
  - exists "". rewrite !append_assoc, append_empty_r. reflexivity.
  - exists "". rewrite !append_assoc, append_empty_r. reflexivity.
Qed.

(** So does every command that gets built. *)
Lemma command_shape w prompt userId options cmd :
  command w prompt userId options = Normal cmd ->
  exists rest,
    cmd =
      "claude -p " +:+ quoted (escapeForShell (sanitizePrompt prompt))
      +:+ " --output-format json --allowedTools "
      +:+ quoted (join "," (default DEFAULT_TOOLS (ExecuteOptions.allowedTools options)))
      +:+ rest.
Proof.
  destruct (base_command_shape (sanitizePrompt prompt) options) as (rest & Hbase).
  unfold command, with_resume. rewrite Hbase.
  destruct (sessions w !! userId) as [session|];
    [destruct (negb (truthy_flag (ExecuteOptions.newSession options)));
     [destruct (ToString (SessionInfo.sessionId session)) as [token|e]|]|];
    intros [= <-].
  - eexists. rewrite !append_assoc. reflexivity.
  - exists rest. reflexivity.
  - exists rest. reflexivity.
Qed.

Section Unchecked.
Context `{JsonParser}.

(** A run whose command gets built succeeds exactly when the subprocess
    completes and what its output parses to has properties to read. *)
Lemma execute_success_iff (exec : Exec) prompt userId options w cmd :
  command w prompt userId options = Normal cmd ->
  exists r w',
    claude_code_execute exec prompt userId options w = (Normal r, w')
    /\ (ClaudeCodeResult.success r = true <->
        exists stdout stderr,
          (exec cmd (exec_options (process_env w) options)).1 = Resolved stdout stderr
          /\ readable (parsed_result stdout) = true).
Proof.
  intros Hcmd. rewrite (claude_code_execute_run _ _ _ _ _ cmd Hcmd).
  destruct ((exec cmd (exec_options (process_env w) options)).1)
    as [stdout stderr | e] eqn:Hexec.
  - destruct (readable (parsed_result stdout)) eqn:Hr.
    + match goal with
      | |- context [execute_end ?k _ ?w1] =>
          destruct (execute_end_resolved k stdout stderr w1 Hr) as (w' & -> & _)
      end.
      eexists _, w'. split; [reflexivity|]. cbn. split; [|reflexivity].
      intros _. exists stdout, stderr. split; [reflexivity | exact Hr].
    + unfold execute_end, try_catch.
      match goal with
      | |- context [execute_try ?k _ ?w1] =>
          destruct (execute_try_unreadable k stdout stderr w1 Hr) as (text & -> & _)
      end.
      rewrite execute_catch_run. eexists _, _. split; [reflexivity|]. cbn.
      split; [discriminate|]. intros (o & e & [= <- <-] & Hr'). congruence.
  - unfold execute_end, try_catch. rewrite execute_try_rejected, execute_catch_run.
    eexists _, _. split; [reflexivity|]. cbn.
    split; [discriminate|]. intros (o & e' & [=] & _).
Qed.

End Unchecked.

(** C1, as the spec states it, fails: a capability list with a name
    outside the enumeration, and an empty list, go into the command as they
    are; the external process is invoked and the call succeeds. *)
Lemma invalid_tools_reach_exec :
  (spawned (claude_code_execute (H := example_parse) exec_done "list files" "u1"
              (only_tools ["Read"; "Shutdown"]) (initial 0 ∅)).2
     = [("claude -p " +:+ quoted "list files"
         +:+ " --output-format json --allowedTools " +:+ quoted "Read,Shutdown",
         exec_options ∅ (only_tools ["Read"; "Shutdown"]))]
   /\ ClaudeCodeResult.success <$>
        returned (claude_code_execute (H := example_parse) exec_done "list files"
                    "u1" (only_tools ["Read"; "Shutdown"]) (initial 0 ∅))
      = Some true)
  /\ (spawned (claude_code_execute (H := example_parse) exec_done "list files" "u1"
                 (only_tools []) (initial 0 ∅)).2
        = [("claude -p " +:+ quoted "list files"
            +:+ " --output-format json --allowedTools " +:+ quoted "",
            exec_options ∅ (only_tools []))]
      /\ ClaudeCodeResult.success <$>
           returned (claude_code_execute (H := example_parse) exec_done "list files"
                       "u1" (only_tools []) (initial 0 ∅))
         = Some true).
Proof. repeat split; vm_compute; reflexivity. Qed.

(** C5, as the spec states it, fails: with an empty prompt and an empty
    user identifier the external process is invoked all the same and the
    call succeeds; a session is even recorded under the empty name. *)
Lemma empty_inputs_reach_exec :
  spawned (claude_code_execute (H := example_parse) exec_done "" ""
             ExecuteOptions.empty (initial 0 ∅)).2
    = [("claude -p " +:+ quoted "" +:+ default_tools_arg,
        exec_options ∅ ExecuteOptions.empty)]
  /\ ClaudeCodeResult.success <$>
       returned (claude_code_execute (H := example_parse) exec_done "" ""
                   ExecuteOptions.empty (initial 0 ∅))
     = Some true
  /\ SessionInfo.sessionId <$>
       sessions (claude_code_execute (H := example_parse) exec_done "" ""
                   ExecuteOptions.empty (initial 0 ∅)).2 !! ""
     = Some (VString "s-1").
Proof. repeat split; vm_compute; reflexivity. Qed.

Section NoRejection.
Context `{JsonParser}.

(** C1, amended.  [claude_code_execute] does not validate
    [options.allowedTools]: in every call that gets its command built,
    whatever list is supplied, also an empty one or one with names outside
    the enumeration, is joined by commas into the [--allowedTools]
    argument (the default enumeration when no list is supplied); the
    command is handed to [exec] exactly once, and the call succeeds
    exactly when the subprocess completes with an output other than the
    JSON [null].  Whether the command gets built does not depend on the
    list. *)
Theorem allowed_tools_are_not_validated (exec : Exec) prompt userId options w cmd :
  command w prompt userId options = Normal cmd ->
  let tools := default DEFAULT_TOOLS (ExecuteOptions.allowedTools options) in
  (exists r w' rest,
     claude_code_execute exec prompt userId options w = (Normal r, w')
     /\ spawned w' = (spawned w ++ [(cmd, exec_options (process_env w) options)])%list
     /\ cmd =
          "claude -p " +:+ quoted (escapeForShell (sanitizePrompt prompt))
          +:+ " --output-format json --allowedTools "
          +:+ quoted (join "," tools) +:+ rest
     /\ (ClaudeCodeResult.success r = true <->
         exists stdout stderr,
           (exec cmd (exec_options (process_env w) options)).1 = Resolved stdout stderr
           /\ readable (parsed_result stdout) = true))
  /\ (forall other,
        exists cmd',
          command w prompt userId
            {| ExecuteOptions.newSession := ExecuteOptions.newSession options;
               ExecuteOptions.workingDir := ExecuteOptions.workingDir options;
               ExecuteOptions.allowedTools := other;
               ExecuteOptions.timeout := ExecuteOptions.timeout options;
               ExecuteOptions.appendSystemPrompt :=
                 ExecuteOptions.appendSystemPrompt options |} = Normal cmd').
Proof.
  intros Hcmd tools. split.
  - destruct (execute_success_iff exec prompt userId options w cmd Hcmd)
      as (r & w' & Hrun & Hiff).
    destruct (command_shape w prompt userId options cmd Hcmd) as (rest & Hshape).
    exists r, w', rest. split; [exact Hrun|].
    split; [|split; [exact Hshape | exact Hiff]].
    pose proof (claude_code_execute_spawns exec prompt userId options w cmd Hcmd) as Hsp.
    rewrite Hrun in Hsp. exact Hsp.
  - intros other. revert Hcmd. unfold command, with_resume.
    cbn [ExecuteOptions.newSession].
    destruct (sessions w !! userId) as [session|]; [|eexists; reflexivity].
    destruct (negb (truthy_flag (ExecuteOptions.newSession options)));
      [|eexists; reflexivity].
    destruct (ToString (SessionInfo.sessionId session)); [|discriminate].
    eexists. reflexivity.
Qed.

(** C5, amended.  [claude_code_execute] checks neither the prompt nor the
    user identifier: when the sanitized prompt or the user identifier is
    empty, a call that gets its command built builds it all the same (with
    an empty [-p] argument for an empty sanitized prompt) and hands it to
    [exec] exactly once; the call fails only when the subprocess fails or
    prints the JSON [null]. *)
Theorem empty_inputs_are_not_rejected (exec : Exec) prompt userId options w cmd :
  sanitizePrompt prompt = "" \/ userId = "" ->
  command w prompt userId options = Normal cmd ->
  exists r w',
    claude_code_execute exec prompt userId options w = (Normal r, w')
    /\ spawned w' = (spawned w ++ [(cmd, exec_options (process_env w) options)])%list
    /\ (sanitizePrompt prompt = "" ->
        String.prefix ("claude -p " +:+ quoted "" +:+ " --output-format json ")
                      cmd = true)
    /\ (ClaudeCodeResult.success r = false <->
        (exists e, (exec cmd (exec_options (process_env w) options)).1 = Rejected e)
        \/ (exists stdout stderr,
              (exec cmd (exec_options (process_env w) options)).1
              = Resolved stdout stderr
              /\ readable (parsed_result stdout) = false)).
Proof.
  intros _ Hcmd.
  destruct (execute_success_iff exec prompt userId options w cmd Hcmd)
    as (r & w' & Hrun & Hiff).
  exists r, w'. split; [exact Hrun|]. split; [|split].
  - pose proof (claude_code_execute_spawns exec prompt userId options w cmd Hcmd) as Hsp.
    rewrite Hrun in Hsp. exact Hsp.
  - intros Hempty.
    destruct (command_shape w prompt userId options cmd Hcmd) as (rest & ->).
    rewrite Hempty. reflexivity.
  - destruct (ClaudeCodeResult.success r) eqn:Hs.
    + split; [discriminate|].
      destruct (proj1 Hiff eq_refl) as (stdout & stderr & Hex & Hr).
      intros [(e & He) | (o & e & He & Hr')]; rewrite Hex in He.
      * discriminate.
      * injection He as <- <-. congruence.
    + split; [intros _|reflexivity].
      destruct ((exec cmd (exec_options (process_env w) options)).1)
        as [stdout stderr | e] eqn:Hex.
      * right. exists stdout, stderr. split; [reflexivity|].
        destruct (readable (parsed_result stdout)) eqn:Hr; [|reflexivity].
        assert (false = true) as Habs; [|discriminate Habs].
        apply Hiff. exists stdout, stderr. split; [reflexivity | exact Hr].
      * left. exists e. reflexivity.
Qed.

End NoRejection.

Lemma allowed_tools_are_not_validated_witness :
  exists r w' rest,
    claude_code_execute (H := example_parse) exec_done "list files" "u1"
      (only_tools ["Read"; "Shutdown"]) after_first_call = (Normal r, w')
    /\ spawned w' = (spawned after_first_call
                     ++ [("claude -p " +:+ quoted "list files"
                          +:+ " --output-format json --allowedTools "
                          +:+ quoted "Read,Shutdown" +:+ " --resume s-1",
                          exec_options ∅ (only_tools ["Read"; "Shutdown"]))])%list
    /\ "claude -p " +:+ quoted "list files"
       +:+ " --output-format json --allowedTools "
       +:+ quoted "Read,Shutdown" +:+ " --resume s-1"
       = "claude -p " +:+ quoted "list files"
         +:+ " --output-format json --allowedTools "
         +:+ quoted "Read,Shutdown" +:+ rest
    /\ (ClaudeCodeResult.success r = true <->
        exists stdout stderr,
          Resolved done_s1 "" = Resolved stdout stderr
          /\ readable (parsed_result (H := example_parse) stdout) = true).
Proof.
  exact (proj1 (allowed_tools_are_not_validated (H := example_parse) exec_done
                  "list files" "u1" (only_tools ["Read"; "Shutdown"])
                  after_first_call _ eq_refl)).
Defined.

Lemma empty_inputs_are_not_rejected_witness :
  exists r w',
    claude_code_execute (H := example_parse) exec_failing "" ""
      ExecuteOptions.empty (initial 0 ∅) = (Normal r, w')
    /\ spawned w' = [("claude -p " +:+ quoted "" +:+ default_tools_arg,
                      exec_options ∅ ExecuteOptions.empty)]
    /\ ClaudeCodeResult.success r = false.
Proof.
  destruct (empty_inputs_are_not_rejected (H := example_parse) exec_failing "" ""
              ExecuteOptions.empty (initial 0 ∅) _ (or_introl eq_refl) eq_refl)
    as (r & w' & Hrun & Hsp & _ & Hfail).
  exists r, w'. split; [exact Hrun|]. split; [exact Hsp|].
  apply Hfail. left. eexists. reflexivity.
Defined.

Section Strip.
Variable m : string -> option nat.

Lemma strip_inert s rest :
  inert m s -> strip m 0 (s +:+ rest) = s +:+ strip m 0 rest.
Proof.
  induction s as [|c s IH]; intros Hin; [reflexivity|].
  destruct Hin as [Hhere Hlater].
  change (strip m 0 (String c (s +:+ rest)) = String c (s +:+ strip m 0 rest)).
  cbn [strip]. rewrite Hhere, (IH Hlater). reflexivity.
Qed.

Lemma strip_skip s rest :
  strip m (String.length s) (s +:+ rest) = strip m 0 rest.
Proof.
  induction s as [|c s IH]; [destruct rest; reflexivity|].
  change (strip m (S (String.length s)) (String c (s +:+ rest)) = strip m 0 rest).
  cbn [strip]. exact IH.
Qed.

Lemma strip_matched s rest :
  matched m s -> strip m 0 (s +:+ rest) = strip m 0 rest.
Proof.
  intros [Hne Hm]. destruct s as [|c s]; [congruence|].
  specialize (Hm rest).
  change (m (String c (s +:+ rest)) = Some (S (String.length s))) in Hm.
  change (strip m 0 (String c (s +:+ rest)) = strip m 0 rest).
  cbn [strip]. rewrite Hm. apply strip_skip.
Qed.

(** One pass over a prompt in pieces drops the pieces it matches and
    keeps the pieces that are inert for it. *)
Lemma strip_render (drop : piece -> bool) (xs : list piece) :
  Forall (fun x => if drop x then matched m (text_of x) else inert m (text_of x)) xs ->
  remove_all m (render xs) = render (filter (fun x => negb (drop x)) xs).
Proof.
  unfold remove_all. induction 1 as [|x xs Hx _ IH]; [reflexivity|].
  cbn [render]. rewrite filter_cons. destruct (drop x) eqn:Hd; cbn [negb].
  - rewrite decide_False by (intros []). rewrite strip_matched by exact Hx. exact IH.
  - rewrite decide_True by exact I. cbn [render].
    rewrite strip_inert by exact Hx. rewrite IH. reflexivity.
Qed.

End Strip.

(** ** The sanitizer on prompts in pieces *)

Lemma lower_idempotent c : lower (lower c) = lower c.
Proof. destruct c as [[] [] [] [] [] [] [] []]; reflexivity. Qed.

Lemma lower_is_dash c : lower c = DASH -> c = DASH.
Proof. destruct c as [[] [] [] [] [] [] [] []]; cbv; congruence. Qed.

Lemma match_ci_needs_dash pat : needs_dash (match_ci (String DASH pat)).
Proof.
  intros c s Hc. cbn [match_ci].
  destruct (Ascii.eqb_spec (lower DASH) (lower c)) as [Heq|]; [|reflexivity].
  exfalso. apply Hc, lower_is_dash. symmetry. exact Heq.
Qed.

Lemma match_dash_p_ws_needs_dash : needs_dash match_dash_p_ws.
Proof.
  intros c s Hc. unfold match_dash_p_ws. destruct s as [|p rest]; [reflexivity|].
  destruct (Ascii.eqb_spec c DASH) as [->|]; [congruence | reflexivity].
Qed.

Lemma mem_char_app c s t : mem_char c (s +:+ t) = mem_char c s || mem_char c t.
Proof.
  induction s as [|d s IH]; [reflexivity|].
  change (Ascii.eqb c d || mem_char c (s +:+ t)
          = Ascii.eqb c d || mem_char c s || mem_char c t).
  rewrite IH. apply orb_assoc.
Qed.

Lemma needs_dash_inert m t :
  needs_dash m -> mem_char DASH t = false -> inert m t.
Proof.
  intros Hm. induction t as [|c t IH]; intros Hfree; [exact I|].
  cbn [mem_char] in Hfree. apply orb_false_elim in Hfree as [Hc Ht].
  split; [|exact (IH Ht)].
  intros rest. apply Hm. intros ->. rewrite Ascii.eqb_refl in Hc. discriminate.
Qed.

Lemma lower_string_app s t :
  lower_string (s +:+ t) = lower_string s +:+ lower_string t.
Proof.
  induction s as [|c s IH]; [reflexivity|].
  change (String (lower c) (lower_string (s +:+ t))
          = String (lower c) (lower_string s +:+ lower_string t)).
  rewrite IH. reflexivity.
Qed.

Lemma lower_string_length s : String.length (lower_string s) = String.length s.
Proof. induction s as [|c s IH]; cbn; [reflexivity | rewrite IH; reflexivity]. Qed.

Lemma match_ci_lower pat s : match_ci pat (lower_string s) = match_ci pat s.
Proof.
  revert s. induction pat as [|p pat IH]; intros s; [reflexivity|].
  destruct s as [|c s]; [reflexivity|]. cbn [match_ci lower_string].
  rewrite lower_idempotent, IH. reflexivity.
Qed.

(** For a pattern blind to letter case, a text is inert when its
    lower-case form is. *)
Lemma inert_lower m f :
  (forall s, m (lower_string s) = m s) -> inert m (lower_string f) -> inert m f.
Proof.
  intros Hm. induction f as [|c f IH]; intros Hin; [exact I|].
  destruct Hin as [Hhere Hlater]. split; [|exact (IH Hlater)].
  intros rest. rewrite <- Hm.
  change (m (String (lower c) (lower_string (f +:+ rest))) = None).
  rewrite lower_string_app. apply Hhere.
Qed.

Lemma match_ci_matched pat f :
  pat <> "" ->
  lower_string f = lower_string pat ->
  matched (match_ci pat) f.
Proof.
  intros Hpat Hf. split.
  - intros ->. destruct pat; [congruence | discriminate].
  - intros rest. rewrite <- (lower_string_length f), Hf, lower_string_length.
    rewrite <- match_ci_lower, lower_string_app, Hf, <- lower_string_app, match_ci_lower.
    clear. induction pat as [|p pat IH]; [reflexivity|].
    change (match_ci (String p pat) (String p (pat +:+ rest))
            = Some (S (String.length pat))).
    cbn [match_ci]. rewrite Ascii.eqb_refl, IH. reflexivity.
Qed.

Ltac absurd_ws H :=
  unfold ws1, ws2, ws3, DASH in H; cbn in H;
  repeat (rewrite ?andb_false_r, ?orb_false_r in H; cbn in H);
  discriminate H.

Lemma ws1_not_dash c : ws1 c = true -> Ascii.eqb DASH c = false.
Proof.
  intros H1. destruct (Ascii.eqb_spec DASH c) as [<-|]; [absurd_ws H1 | reflexivity].
Qed.

Lemma ws2_not_dash c c1 :
  ws2 c c1 = true -> Ascii.eqb DASH c = false /\ Ascii.eqb DASH c1 = false.
Proof.
  intros H2. split.
  - destruct (Ascii.eqb_spec DASH c) as [<-|]; [absurd_ws H2 | reflexivity].
  - destruct (Ascii.eqb_spec DASH c1) as [<-|]; [absurd_ws H2 | reflexivity].
Qed.

Lemma ws3_not_dash c c1 c2 :
  ws3 c c1 c2 = true ->
  Ascii.eqb DASH c = false /\ Ascii.eqb DASH c1 = false /\ Ascii.eqb DASH c2 = false.
Proof.
  intros H3. split; [|split].
  - destruct (Ascii.eqb_spec DASH c) as [<-|]; [absurd_ws H3 | reflexivity].
  - destruct (Ascii.eqb_spec DASH c1) as [<-|]; [absurd_ws H3 | reflexivity].
  - destruct (Ascii.eqb_spec DASH c2) as [<-|]; [absurd_ws H3 | reflexivity].
Qed.

(** A text that is exactly one white-space character is seen as such
    whatever follows it, and it holds no dash. *)
Lemma ws_len_whole space :
  ws_len space = Some (String.length space) ->
  (forall rest, ws_len (space +:+ rest) = Some (String.length space))
  /\ mem_char DASH space = false.
Proof.
  destruct space as [|c s1]; [discriminate|]. cbn [ws_len].
  destruct (ws1 c) eqn:H1.
  { intros [= Hl]. destruct s1; [|discriminate]. split.
    - intros rest. change (ws_len (String c rest) = Some 1%nat).
      cbn [ws_len]. rewrite H1. reflexivity.
    - cbn [mem_char]. rewrite (ws1_not_dash c H1). reflexivity. }
  destruct s1 as [|c1 s2]; [discriminate|].
  destruct (ws2 c c1) eqn:H2.
  { intros [= Hl]. destruct s2; [|discriminate]. split.
    - intros rest. change (ws_len (String c (String c1 rest)) = Some 2%nat).
      cbn [ws_len]. rewrite H1, H2. reflexivity.
    - cbn [mem_char]. destruct (ws2_not_dash c c1 H2) as [-> ->]. reflexivity. }
  destruct s2 as [|c2 s3]; [discriminate|].
  destruct (ws3 c c1 c2) eqn:H3; [|discriminate].
  intros [= Hl]. destruct s3; [|discriminate]. split.
  - intros rest.
    change (ws_len (String c (String c1 (String c2 rest))) = Some 3%nat).
    cbn [ws_len]. rewrite H1, H2, H3. reflexivity.
  - cbn [mem_char]. destruct (ws3_not_dash c c1 c2 H3) as (-> & -> & ->).
    reflexivity.
Qed.

Lemma lower_p_not_dash p : lower p = "p"%char -> p <> DASH.
Proof. intros Hp ->. discriminate Hp. Qed.

Lemma well_formed_DashP p space :
  well_formed (DashP p space) = true ->
  lower p = "p"%char
  /\ (forall rest, ws_len (space +:+ rest) = Some (String.length space))
  /\ mem_char DASH space = false.
Proof.
  cbn [well_formed]. intros [Hp Hw]%andb_prop.
  apply Ascii.eqb_eq in Hp. apply bool_decide_eq_true_1 in Hw.
  split; [exact Hp|]. apply ws_len_whole, Hw.
Qed.

(** A [-p] piece is inert for a pattern whose second character is a
    dash. *)
Lemma DashP_inert pat p space :
  well_formed (DashP p space) = true ->
  inert (match_ci (String DASH (String DASH pat))) (text_of (DashP p space)).
Proof.
  intros (Hp & _ & Hfree)%well_formed_DashP. cbn [text_of inert].
  split; [|split].
  - intros rest.
    change (match_ci (String DASH (String DASH pat))
              (String DASH (String p (space +:+ rest))) = None).
    cbn [match_ci]. rewrite Ascii.eqb_refl, Hp. reflexivity.
  - intros rest. apply match_ci_needs_dash, lower_p_not_dash, Hp.
  - apply needs_dash_inert; [apply match_ci_needs_dash | exact Hfree].
Qed.

Lemma DashP_matched p space :
  well_formed (DashP p space) = true ->
  matched match_dash_p_ws (text_of (DashP p space)).
Proof.
  intros (Hp & Hws & _)%well_formed_DashP. cbn [text_of]. split; [discriminate|].
  intros rest.
  change (match_dash_p_ws (String DASH (String p (space +:+ rest)))
          = Some (S (S (String.length space)))).
  unfold match_dash_p_ws. rewrite Ascii.eqb_refl, Hp, Hws. reflexivity.
Qed.

Lemma Text_inert_ci pat t :
  well_formed (Text t) = true -> inert (match_ci (String DASH pat)) t.
Proof.
  cbn [well_formed]. intros Hfree%negb_true_iff.
  apply needs_dash_inert; [apply match_ci_needs_dash | exact Hfree].
Qed.

Lemma pass_allowedTools x :
  well_formed x = true ->
  if is_AllowedTools x then matched (match_ci "--allowedTools") (text_of x)
  else inert (match_ci "--allowedTools") (text_of x).
Proof.
  intros Hwf. destruct x as [t | f | f | p space]; cbn [is_AllowedTools text_of].
  - apply (Text_inert_ci _ t Hwf).
  - apply match_ci_matched; [discriminate|]. apply String.eqb_eq, Hwf.
  - apply inert_lower; [intros s; apply match_ci_lower|].
    apply String.eqb_eq in Hwf. cbn [well_formed] in Hwf. rewrite Hwf.
    cbn [inert]. repeat split; intros rest; reflexivity.
  - apply (DashP_inert _ p space Hwf).
Qed.

Lemma pass_dangerously x :
  well_formed x = true ->
  if is_Dangerously x then matched (match_ci "--dangerously") (text_of x)
  else inert (match_ci "--dangerously") (text_of x).
Proof.
  intros Hwf. destruct x as [t | f | f | p space]; cbn [is_Dangerously text_of].
  - apply (Text_inert_ci _ t Hwf).
  - apply inert_lower; [intros s; apply match_ci_lower|].
    apply String.eqb_eq in Hwf. cbn [well_formed] in Hwf. rewrite Hwf.
    cbn [inert]. repeat split; intros rest; reflexivity.
  - apply match_ci_matched; [discriminate|]. apply String.eqb_eq, Hwf.
  - apply (DashP_inert _ p space Hwf).
Qed.

Lemma pass_dash_p x :
  well_formed x = true ->
  is_AllowedTools x = false -> is_Dangerously x = false ->
  if is_DashP x then matched match_dash_p_ws (text_of x)
  else inert match_dash_p_ws (text_of x).
Proof.
  intros Hwf Ha Hd. destruct x as [t | f | f | p space]; try discriminate;
    cbn [is_DashP text_of].
  - cbn [well_formed] in Hwf. apply negb_true_iff in Hwf.
    apply needs_dash_inert; [apply match_dash_p_ws_needs_dash | exact Hwf].
  - apply (DashP_matched p space Hwf).
Qed.

Lemma render_texts_only xs :
  render (filter (fun x => negb (is_DashP x))
            (filter (fun x => negb (is_Dangerously x))
               (filter (fun x => negb (is_AllowedTools x)) xs)))
  = kept xs.
Proof.
  induction xs as [|x xs IH]; [reflexivity|].
  destruct x as [t | f | f | p space]; rewrite filter_cons; cbn [is_AllowedTools negb].
  - rewrite decide_True by exact I. rewrite filter_cons. cbn [is_Dangerously negb].
    rewrite decide_True by exact I. rewrite filter_cons. cbn [is_DashP negb].
    rewrite decide_True by exact I. cbn [render kept text_of]. rewrite IH. reflexivity.
  - rewrite decide_False by (intros []). exact IH.
  - rewrite decide_True by exact I. rewrite filter_cons. cbn [is_Dangerously negb].
    rewrite decide_False by (intros []). exact IH.
  - rewrite decide_True by exact I. rewrite filter_cons. cbn [is_Dangerously negb].
    rewrite decide_True by exact I. rewrite filter_cons. cbn [is_DashP negb].
    rewrite decide_False by (intros []). exact IH.
Qed.

(** Each of the three replacements is one pass, so the removal of one
    pattern can leave an occurrence of another behind. *)
Example sanitize_is_single_pass :
  sanitizePrompt "--allowed--dangerouslyTools Bash" = "--allowedTools Bash".
Proof. reflexivity. Qed.

(** The pattern list of the skill has no [--resume]. *)
Example sanitize_leaves_resume :
  sanitizePrompt "hello --resume s-9" = "hello --resume s-9".
Proof. reflexivity. Qed.

(** C3, as the spec states it, fails: text in option syntax that is none
    of the three patterns of [sanitizePrompt] is left in the prompt and
    reaches the command line. *)
Lemma other_flags_survive :
  sanitizePrompt "summarise --append-system-prompt now"
    = "summarise --append-system-prompt now"
  /\ command (initial 0 ∅) "summarise --append-system-prompt now" "u1"
       ExecuteOptions.empty
     = Normal ("claude -p " +:+ quoted "summarise --append-system-prompt now"
               +:+ default_tools_arg).
Proof. split; vm_compute; reflexivity. Qed.

(** C3, amended.  [sanitizePrompt] strips the occurrences of three fixed
    patterns, letter case ignored: [--allowedTools], [--dangerously], and
    [-p] followed by one white-space character.  For every prompt made of
    text without a dash and of such occurrences, in any order and number,
    the sanitized prompt is the text alone, and it is this text that
    reaches the command line, escaped, as the [-p] argument: of the
    command without session clause, and of every command built from it. *)
Theorem sanitize_strips_separated_flags (xs : list piece) :
  forallb well_formed xs = true ->
  sanitizePrompt (render xs) = kept xs
  /\ forall w userId options,
       (exists rest,
          base_command (sanitizePrompt (render xs)) options =
            "claude -p " +:+ quoted (escapeForShell (kept xs))
            +:+ " --output-format json --allowedTools "
            +:+ quoted (join "," (default DEFAULT_TOOLS
                                    (ExecuteOptions.allowedTools options)))
            +:+ rest)
       /\ (forall cmd,
             command w (render xs) userId options = Normal cmd ->
             exists rest,
               cmd =
                 "claude -p " +:+ quoted (escapeForShell (kept xs))
                 +:+ " --output-format json --allowedTools "
                 +:+ quoted (join "," (default DEFAULT_TOOLS
                                         (ExecuteOptions.allowedTools options)))
                 +:+ rest).
Proof.
  intros Hwf. rewrite forallb_forall in Hwf.
  assert (Hsan : sanitizePrompt (render xs) = kept xs).
  { unfold sanitizePrompt.
    rewrite (strip_render _ is_AllowedTools xs).
    2:{ apply Forall_forall. intros x Hx. apply pass_allowedTools, Hwf.
        apply list_elem_of_In, Hx. }
    rewrite (strip_render _ is_Dangerously).
    2:{ apply Forall_forall. intros x [_ Hx]%list_elem_of_filter.
        apply pass_dangerously, Hwf. apply list_elem_of_In, Hx. }
    rewrite (strip_render _ is_DashP).
    2:{ apply Forall_forall.
        intros x [Hd%Is_true_true%negb_true_iff
                  [Ha%Is_true_true%negb_true_iff Hx]%list_elem_of_filter]%list_elem_of_filter.
        apply pass_dash_p; [|exact Ha|exact Hd]. apply Hwf, list_elem_of_In, Hx. }
    apply render_texts_only. }
  split; [exact Hsan|].
  intros w userId options. split.
  - destruct (base_command_shape (sanitizePrompt (render xs)) options)
      as (rest & Hshape).
    exists rest. rewrite Hshape, Hsan. reflexivity.
  - intros cmd Hcmd.
    destruct (command_shape w (render xs) userId options cmd Hcmd) as (rest & Hshape).
    exists rest. rewrite Hshape, Hsan. reflexivity.
Qed.

Lemma sanitize_strips_separated_flags_witness :
  sanitizePrompt "list files --AllowedTools Bash -P --dangerously skip"
  = "list files  Bash  skip".
Proof.
  exact (proj1 (sanitize_strips_separated_flags
                  [Text "list files "; AllowedTools "--AllowedTools";
                   Text " Bash "; DashP "P" " "; Dangerously "--dangerously";
                   Text " skip"] eq_refl)).
Defined.

(* ====================================================================== *)
(** ** The round trip of the prompt argument *)
(* ====================================================================== *)

Lemma replace_char_app c r s t :
  replace_char c r (s +:+ t) = replace_char c r s +:+ replace_char c r t.
Proof.
  induction s as [|d s IH]; [reflexivity|].
  change (replace_char c r (String d (s +:+ t))
          = replace_char c r (String d s) +:+ replace_char c r t).
  cbn [replace_char]. rewrite IH. destruct (Ascii.eqb d c).
  - rewrite append_assoc. reflexivity.
  - reflexivity.
Qed.

Lemma escapeForShell_app s t :
  escapeForShell (s +:+ t) = escapeForShell s +:+ escapeForShell t.
Proof. unfold escapeForShell. rewrite !replace_char_app. reflexivity. Qed.

Lemma escapeForShell_chr c : escapeForShell (chr c) = escape_char c.
Proof. destruct c as [[] [] [] [] [] [] [] []]; reflexivity. Qed.

(** The five passes amount to one pass that escapes each character on
    its own. *)
Lemma escapeForShell_cons c s :
  escapeForShell (String c s) = escape_char c +:+ escapeForShell s.
Proof.
  change (String c s) with (chr c +:+ s).
  rewrite escapeForShell_app, escapeForShell_chr. reflexivity.
Qed.

(** What the external tool receives for a prompt: the prompt with a
    backslash left in front of every exclamation mark. *)
Lemma escaped_prompt_received (p rest : string) :
  sh_dquoted (escapeForShell p +:+ DQ +:+ rest)
  = Some (replace_char BANG (String BACKSLASH (chr BANG)) p, rest).
Proof.
  induction p as [|c p IH]; [reflexivity|].
  rewrite escapeForShell_cons, append_assoc. cbn [replace_char].
  unfold escape_char.
  destruct (Ascii.eqb_spec c BACKSLASH) as [->|Hb];
    [change (sh_dquoted (String BACKSLASH (String BACKSLASH
               (escapeForShell p +:+ DQ +:+ rest))) = Some (String BACKSLASH
               (replace_char BANG (String BACKSLASH (chr BANG)) p), rest));
     cbn [sh_dquoted]; rewrite IH; reflexivity|].
  destruct (Ascii.eqb_spec c DQUOTE) as [->|Hq];
    [change (sh_dquoted (String BACKSLASH (String DQUOTE
               (escapeForShell p +:+ DQ +:+ rest))) = Some (String DQUOTE
               (replace_char BANG (String BACKSLASH (chr BANG)) p), rest));
     cbn [sh_dquoted]; rewrite IH; reflexivity|].
  destruct (Ascii.eqb_spec c DOLLAR) as [->|Hd];
    [change (sh_dquoted (String BACKSLASH (String DOLLAR
               (escapeForShell p +:+ DQ +:+ rest))) = Some (String DOLLAR
               (replace_char BANG (String BACKSLASH (chr BANG)) p), rest));
     cbn [sh_dquoted]; rewrite IH; reflexivity|].
  destruct (Ascii.eqb_spec c BACKTICK) as [->|Ht];
    [change (sh_dquoted (String BACKSLASH (String BACKTICK
               (escapeForShell p +:+ DQ +:+ rest))) = Some (String BACKTICK
               (replace_char BANG (String BACKSLASH (chr BANG)) p), rest));
     cbn [sh_dquoted]; rewrite IH; reflexivity|].
  destruct (Ascii.eqb_spec c BANG) as [->|Hx];
    [change (sh_dquoted (String BACKSLASH (String BANG
               (escapeForShell p +:+ DQ +:+ rest)))
             = Some (String BACKSLASH (String BANG
               (replace_char BANG (String BACKSLASH (chr BANG)) p)), rest));
     cbn [sh_dquoted]; rewrite IH; reflexivity|].
  cbn [orb].
  change (sh_dquoted (String c (escapeForShell p +:+ DQ +:+ rest))
          = Some (String c (replace_char BANG (String BACKSLASH (chr BANG)) p), rest)).
  cbn [sh_dquoted].
  rewrite (proj2 (Ascii.eqb_neq c DQUOTE) Hq), (proj2 (Ascii.eqb_neq c DOLLAR) Hd),
    (proj2 (Ascii.eqb_neq c BACKTICK) Ht), (proj2 (Ascii.eqb_neq c BACKSLASH) Hb).
  cbn [orb]. rewrite IH. reflexivity.
Qed.

Lemma replace_char_absent c r s :
  mem_char c s = false -> replace_char c r s = s.
Proof.
  induction s as [|d s IH]; [reflexivity|]. cbn [mem_char replace_char].
  intros [Hd Hs]%orb_false_elim. rewrite Ascii.eqb_sym, Hd, (IH Hs). reflexivity.
Qed.

(** On prompts without an exclamation mark the escaping does round-trip:
    the shell gives back the sanitized prompt as one argument. *)
Lemma escapeForShell_round_trip_without_bang (p rest : string) :
  mem_char BANG p = false ->
  sh_dquoted (escapeForShell p +:+ DQ +:+ rest) = Some (p, rest).
Proof.
  intros Hp. rewrite escaped_prompt_received, replace_char_absent by exact Hp.
  reflexivity.
Qed.

(** C6, at the input where the code departs from it: the prompt
    [Fix it!] is escaped to [Fix it\!], and the shell reads the quoted
    argument back as the eight characters [Fix it\!], a backslash more
    than the sanitized prompt.  The same holds for every prompt with an
    exclamation mark: the argument received is never the prompt. *)
Theorem escaped_bang_keeps_backslash :
  sanitizePrompt "Fix it!" = "Fix it!"
  /\ escapeForShell "Fix it!" = "Fix it" +:+ String BACKSLASH "!"
  /\ sh_dquoted (escapeForShell (sanitizePrompt "Fix it!") +:+ DQ
                 +:+ " --output-format json")
     = Some ("Fix it" +:+ String BACKSLASH "!", " --output-format json")
  /\ forall p rest,
       mem_char BANG p = true ->
       sh_dquoted (escapeForShell p +:+ DQ +:+ rest) <> Some (p, rest).
Proof.
  split; [reflexivity|]. split; [reflexivity|]. split; [reflexivity|].
  intros p rest Hp. rewrite escaped_prompt_received. intros [= Heq].
  assert (Hlen : forall s, mem_char BANG s = true ->
            String.length (replace_char BANG (String BACKSLASH (chr BANG)) s)
            > String.length s).
  { clear. induction s as [|c s IH]; [discriminate|].
    cbn [mem_char replace_char]. rewrite Ascii.eqb_sym.
    destruct (Ascii.eqb c BANG) eqn:Hc.
    - intros _. clear IH.
      change (S (S (String.length
                (replace_char BANG (String BACKSLASH (chr BANG)) s)))
              > S (String.length s)).
      assert (String.length s
              <= String.length (replace_char BANG (String BACKSLASH (chr BANG)) s)).
      { clear. induction s as [|c s IH]; [reflexivity|].
        cbn [replace_char]. destruct (Ascii.eqb c BANG).
        - change (S (String.length s) <= S (S (String.length
                    (replace_char BANG (String BACKSLASH (chr BANG)) s)))).
          lia.
        - cbn [String.length]. lia. }
      lia.
    - cbn [orb String.length]. intros Hs. specialize (IH Hs). lia. }
  specialize (Hlen p Hp). rewrite Heq in Hlen. lia.
Qed.

(* ====================================================================== *)
(** ** Routing *)
(* ====================================================================== *)

(** C8.  A message that matches at least one always-direct pattern is
    handled directly, [route] gives [false], whatever the route-to-agent
    patterns and the fallback say, also when the message matches a
    route-to-agent pattern as well. *)
Theorem direct_patterns_take_priority {Pattern : Type}
    (matches : Pattern -> string -> bool) (config : Router.Config Pattern)
    (text : string) (pattern : Pattern) :
  In pattern (Router.always_direct config) ->
  matches pattern text = true ->
  Router.route matches config text = false.
Proof.
  intros Hin Hmatch. unfold Router.route.
  assert (Hany : Router.matches_any matches (Router.always_direct config) text = true).
  { unfold Router.matches_any. apply existsb_exists. exists pattern.
    split; assumption. }
  rewrite Hany. reflexivity.
Qed.

Lemma direct_patterns_take_priority_witness :
  Router.matches_any Router.keyword_matches
    (Router.route_to_agent Router.readme_config) "Check the WEATHER file" = true
  /\ Router.route Router.keyword_matches Router.readme_config
       "Check the WEATHER file" = false.
Proof.
  split; [reflexivity|].
  apply (direct_patterns_take_priority Router.keyword_matches Router.readme_config
           "Check the WEATHER file" ["weather"]).
  - left. reflexivity.
  - reflexivity.
Defined.

(* ====================================================================== *)
(** ** The scenarios of the spec, section 8 *)
(* ====================================================================== *)

(** User [u1] sends a first request and the external tool answers
    [done_s1]: the call succeeds with output [done] and token [s-1], and a
    session with message count 1 is created. *)
Example scenario_first_call :
  returned (claude_code_execute (H := example_parse) exec_done
              "create a file report.txt" "u1" ExecuteOptions.empty (initial 0 ∅))
  = Some {| ClaudeCodeResult.success := true;
            ClaudeCodeResult.output := VString "done";
            ClaudeCodeResult.sessionId := Some (VString "s-1");
            ClaudeCodeResult.error := None;
            ClaudeCodeResult.executionTime := Some 40%Z |}
  /\ sessions after_first_call !! "u1"
     = Some {| SessionInfo.sessionId := VString "s-1";
               SessionInfo.startedAt := 40%Z;
               SessionInfo.lastActivity := 40%Z;
               SessionInfo.messageCount := 1%Z |}.
Proof. split; reflexivity. Qed.

(** The same user sends a second request: the command resumes [s-1] and
    the message count becomes 2. *)
Example scenario_second_call :
  spawned (claude_code_execute (H := example_parse) exec_done
             "what's in that file now" "u1" ExecuteOptions.empty
             after_first_call).2 !! 1%nat
  = Some ("claude -p " +:+ quoted "what's in that file now" +:+ default_tools_arg
          +:+ " --resume s-1",
          exec_options ∅ ExecuteOptions.empty)
  /\ SessionInfo.messageCount <$>
       sessions (claude_code_execute (H := example_parse) exec_done
                   "what's in that file now" "u1" ExecuteOptions.empty
                   after_first_call).2 !! "u1"
     = Some 2%Z.
Proof. split; reflexivity. Qed.

(** A subprocess that fails: the failure is reported in the result and
    the session table stays as it was. *)
Example scenario_failure :
  returned (claude_code_execute (H := example_parse) exec_failing
              "list files" "u1" ExecuteOptions.empty (initial 0 ∅))
  = Some {| ClaudeCodeResult.success := false;
            ClaudeCodeResult.output := VString "";
            ClaudeCodeResult.sessionId := None;
            ClaudeCodeResult.error :=
              Some ("Command failed: claude -p " +:+ quoted "list files"
                    +:+ default_tools_arg);
            ClaudeCodeResult.executionTime := Some 40%Z |}.
Proof. reflexivity. Qed.

(** A subprocess that prints the JSON [null]: reading [result.sessionId]
    throws inside the [try] block, and the [catch] block reports it. *)
Example scenario_null_output :
  returned (claude_code_execute (H := example_parse)
              (fun _ _ => (Resolved "null" "", 40%Z))
              "list files" "u1" ExecuteOptions.empty (initial 0 ∅))
  = Some {| ClaudeCodeResult.success := false;
            ClaudeCodeResult.output := VString "";
            ClaudeCodeResult.sessionId := None;
            ClaudeCodeResult.error :=
              Some "Cannot read properties of null (reading 'sessionId')";
            ClaudeCodeResult.executionTime := Some 40%Z |}.
Proof. reflexivity. Qed.

(** A subprocess that prints [poison_reply]: the call succeeds and the
    object is stored as the token of the user; the next call of that user
    throws while it builds its session clause, before any subprocess is
    started. *)
Example scenario_poisoned_token :
  SessionInfo.sessionId <$> sessions after_poisoned_call !! "u1"
  = Some (VObject [("toString", VNumber "1")])
  /\ claude_code_execute (H := poison_parse) exec_done
       "and again" "u1" ExecuteOptions.empty after_poisoned_call
     = (Throw {| message := "Cannot convert object to primitive value" |},
        after_poisoned_call)
  /\ List.length (spawned after_poisoned_call) = 1%nat.
Proof. repeat split; vm_compute; reflexivity. Qed.

(** A time-out of [NaN] or zero is falsy and gives way to the default. *)
Example scenario_falsy_timeout :
  ExecOptions.timeout
    (exec_options ∅ {| ExecuteOptions.newSession := None;
                       ExecuteOptions.workingDir := None;
                       ExecuteOptions.allowedTools := None;
                       ExecuteOptions.timeout := Some NaN;
                       ExecuteOptions.appendSystemPrompt := None |})
  = 300000%Z
  /\ ExecOptions.timeout
       (exec_options ∅ {| ExecuteOptions.newSession := None;
                          ExecuteOptions.workingDir := None;
                          ExecuteOptions.allowedTools := None;
                          ExecuteOptions.timeout := Some (Finite 0);
                          ExecuteOptions.appendSystemPrompt := None |})
     = 300000%Z.
Proof. split; reflexivity. Qed.

(* ====================================================================== *)
(** * Further properties of the skill *)
(* ====================================================================== *)

(** ** The session table *)

Lemma update_session_effect userId sessionId w :
  update_session userId sessionId w =
    (Normal tt,
     if truthy sessionId
     then set_sessions
            <[userId := next_session (sessions w !! userId) sessionId (clock w)]> w
     else w).
Proof.
  unfold update_session. destruct (truthy sessionId); [|reflexivity].
  cbv [mbind M_bind Date_now get modify].
  destruct (sessions w !! userId); reflexivity.
Qed.

Section Bookkeeping.
Context `{JsonParser}.

(** What the rest of a call does to the bridge: nothing, or, on a
    success with a token, one write to the record of its user. *)
Lemma execute_end_cases k settled w :
  exists r w',
    execute_end k settled w = (Normal r, w')
    /\ (w' = w
        \/ ClaudeCodeResult.success r = true
           /\ exists token,
                truthy token = true
                /\ ClaudeCodeResult.sessionId r = Some token
                /\ w' = set_sessions
                          <[s_userId k :=
                              next_session (sessions w !! s_userId k) token (clock w)]> w).
Proof.
  destruct settled as [stdout stderr | e].
  - destruct (readable (parsed_result stdout)) eqn:Hr.
    + destruct (execute_try_readable k stdout stderr w Hr) as (w' & Hu & Ht).
      rewrite update_session_effect in Hu. injection Hu as <-.
      eexists _, _. split; [unfold execute_end, try_catch; rewrite Ht; reflexivity|].
      destruct (truthy (extracted_token (parsed_result stdout))) eqn:Htok.
      * right. split; [reflexivity|]. eexists. split; [exact Htok|].
        split; reflexivity.
      * left. reflexivity.
    + destruct (execute_try_unreadable k stdout stderr w Hr) as (text & Ht & _).
      eexists _, w. split; [|left; reflexivity].
      unfold execute_end, try_catch. rewrite Ht, execute_catch_run. reflexivity.
  - eexists _, w. split; [|left; reflexivity].
    unfold execute_end, try_catch. rewrite execute_try_rejected, execute_catch_run.
    reflexivity.
Qed.

(** X1.  When the reply of the external tool carries a truthy token
    (under [sessionId] or else [session_id]), the rest of the call
    succeeds, returns that token, and writes exactly one record: a user
    without session gets one that starts now with message count 1; a user
    with a session keeps its start time, gets the new token and the
    current time as last activity, and counts one message more.  Nothing
    else in the bridge changes. *)
Theorem reply_with_token_writes_session k stdout stderr w :
  readable (parsed_result stdout) = true ->
  truthy (extracted_token (parsed_result stdout)) = true ->
  exists r,
    execute_end k (Resolved stdout stderr) w =
      (Normal r,
       set_sessions
         <[s_userId k :=
             match sessions w !! s_userId k with
             | Some old =>
                 {| SessionInfo.sessionId := extracted_token (parsed_result stdout);
                    SessionInfo.startedAt := SessionInfo.startedAt old;
                    SessionInfo.lastActivity := clock w;
                    SessionInfo.messageCount := (SessionInfo.messageCount old + 1)%Z |}
             | None =>
                 {| SessionInfo.sessionId := extracted_token (parsed_result stdout);
                    SessionInfo.startedAt := clock w;
                    SessionInfo.lastActivity := clock w;
                    SessionInfo.messageCount := 1%Z |}
             end]> w)
    /\ ClaudeCodeResult.success r = true
    /\ ClaudeCodeResult.sessionId r = Some (extracted_token (parsed_result stdout)).
Proof.
  intros Hr Htok.
  destruct (execute_try_readable k stdout stderr w Hr) as (w' & Hu & Ht).
  rewrite update_session_effect, Htok in Hu. injection Hu as <-.
  eexists. split.
  - unfold execute_end, try_catch. rewrite Ht. unfold next_session.
    destruct (sessions w !! s_userId k); reflexivity.
  - split; reflexivity.
Qed.

(** X2.  When the reply carries no truthy token, the rest of the call
    leaves the whole bridge as it was: no session is created, and an
    existing session keeps its token, its times and its message count.
    The call is a success, unless the reply is the JSON [null], which has
    no token either and is reported as a failure. *)
Theorem reply_without_token_changes_nothing k stdout stderr w :
  truthy (extracted_token (parsed_result stdout)) = false ->
  exists r,
    execute_end k (Resolved stdout stderr) w = (Normal r, w)
    /\ ClaudeCodeResult.success r = readable (parsed_result stdout)
    /\ (readable (parsed_result stdout) = true ->
        ClaudeCodeResult.sessionId r = Some (extracted_token (parsed_result stdout))
        /\ ClaudeCodeResult.error r = None)
    /\ (readable (parsed_result stdout) = false ->
        ClaudeCodeResult.sessionId r = None
        /\ ClaudeCodeResult.output r = VString "").
Proof.
  intros Htok. unfold execute_end, try_catch.
  destruct (readable (parsed_result stdout)) eqn:Hr.
  - destruct (execute_try_readable k stdout stderr w Hr) as (w' & Hu & Ht).
    rewrite update_session_effect, Htok in Hu. injection Hu as <-.
    eexists. split; [rewrite Ht; reflexivity|].
    split; [reflexivity|]. split; [intros _; split; reflexivity | discriminate].
  - destruct (execute_try_unreadable k stdout stderr w Hr) as (text & Ht & _).
    eexists. split; [rewrite Ht, execute_catch_run; reflexivity|].
    split; [reflexivity|]. split; [discriminate | intros _; split; reflexivity].
Qed.

(** X3.  A call of [claude_code_execute] for one user, uninterrupted or
    suspended and resumed with other operations in between, never touches
    the session of another user; a call that fails touches no session at
    all, and a call that throws changes nothing; no call changes the
    ambient environment or the process table. *)
Theorem execute_touches_only_its_user (userId : string) :
  (forall prompt options w c w',
     execute_begin prompt userId options w = (c, w') ->
     sessions w' = sessions w
     /\ process_env w' = process_env w
     /\ activeProcesses w' = activeProcesses w)
  /\ (forall k settled w,
        s_userId k = userId ->
        exists r w',
          execute_end k settled w = (Normal r, w')
          /\ (forall other, other <> userId ->
                sessions w' !! other = sessions w !! other)
          /\ (ClaudeCodeResult.success r = false -> sessions w' = sessions w)
          /\ process_env w' = process_env w
          /\ activeProcesses w' = activeProcesses w)
  /\ (forall (exec : Exec) prompt options w c w',
        claude_code_execute exec prompt userId options w = (c, w') ->
        (forall other, other <> userId ->
           sessions w' !! other = sessions w !! other)
        /\ match c with
           | Normal r => ClaudeCodeResult.success r = false -> sessions w' = sessions w
           | Throw _ => w' = w
           end
        /\ process_env w' = process_env w
        /\ activeProcesses w' = activeProcesses w).
Proof.
  assert (Hend : forall k settled w,
             s_userId k = userId ->
             exists r w',
               execute_end k settled w = (Normal r, w')
               /\ (forall other, other <> userId ->
                     sessions w' !! other = sessions w !! other)
               /\ (ClaudeCodeResult.success r = false -> sessions w' = sessions w)
               /\ process_env w' = process_env w
               /\ activeProcesses w' = activeProcesses w).
  { intros k settled w Hk.
    destruct (execute_end_cases k settled w) as (r & w' & Hrun & Hcase).
    exists r, w'. split; [exact Hrun|].
    destruct Hcase as [-> | (Hs & token & _ & _ & ->)].
    - repeat split.
    - rewrite Hk. split; [|split; [|split; reflexivity]].
      + intros other Hne. cbn. apply lookup_insert_ne. congruence.
      + rewrite Hs. discriminate. }
  split; [|split; [exact Hend|]].
  - intros prompt options w c w' Hb.
    destruct (execute_begin_frame _ _ _ _ _ _ Hb) as (Hs & Ha & _ & _ & He).
    repeat split; assumption.
  - intros exec prompt options w c w' Hrun.
    destruct (command w prompt userId options) as [cmd|e] eqn:Hcmd.
    + rewrite (claude_code_execute_run _ _ _ _ _ cmd Hcmd) in Hrun.
      match type of Hrun with
      | execute_end ?k ?o ?w1 = _ =>
          destruct (Hend k o w1 eq_refl) as (r & w2 & Hrun2 & Ho & Hf & He & Ha)
      end.
      rewrite Hrun2 in Hrun. injection Hrun as <- <-.
      repeat split; assumption.
    + rewrite (claude_code_execute_throws _ _ _ _ _ e Hcmd) in Hrun.
      injection Hrun as <- <-. repeat split.
Qed.

End Bookkeeping.

Lemma reply_with_token_writes_session_witness :
  exists r,
    execute_end (H := example_parse) second_call (Resolved done_s1 "")
      (set_clock (fun t => (t + 25)%Z) after_first_call)
    = (Normal r,
       set_sessions
         <["u1" := {| SessionInfo.sessionId := VString "s-1";
                      SessionInfo.startedAt := 40%Z;
                      SessionInfo.lastActivity := 65%Z;
                      SessionInfo.messageCount := 2%Z |}]>
         (set_clock (fun t => (t + 25)%Z) after_first_call))
    /\ ClaudeCodeResult.success r = true
    /\ ClaudeCodeResult.sessionId r = Some (VString "s-1").
Proof.
  exact (reply_with_token_writes_session (H := example_parse) second_call
           done_s1 "" (set_clock (fun t => (t + 25)%Z) after_first_call)
           eq_refl eq_refl).
Defined.

Lemma reply_without_token_changes_nothing_witness :
  exists r,
    execute_end (H := scalar_parse) second_call (Resolved "42" "")
      after_first_call
    = (Normal r, after_first_call)
    /\ ClaudeCodeResult.success r = true.
Proof.
  destruct (reply_without_token_changes_nothing (H := scalar_parse) second_call
              "42" "" after_first_call eq_refl) as (r & Hrun & Hs & _).
  exists r. split; [exact Hrun | exact Hs].
Defined.

Section Status.
Context `{JsonParser}.

(** A result that carries a truthy token comes with the write of that
    token to the record of the user. *)
Lemma execute_end_with_token k settled w r w' token :
  execute_end k settled w = (Normal r, w') ->
  ClaudeCodeResult.sessionId r = Some token ->
  truthy token = true ->
  w' = set_sessions
         <[s_userId k := next_session (sessions w !! s_userId k) token (clock w)]> w.
Proof.
  intros Hrun Hsid Htok. unfold execute_end, try_catch in Hrun.
  destruct settled as [stdout stderr | e].
  - destruct (readable (parsed_result stdout)) eqn:Hr.
    + destruct (execute_try_readable k stdout stderr w Hr) as (w1 & Hu & Ht).
      rewrite Ht in Hrun. injection Hrun as <- <-. cbn in Hsid.
      injection Hsid as <-.
      rewrite update_session_effect, Htok in Hu. injection Hu as <-. reflexivity.
    + destruct (execute_try_unreadable k stdout stderr w Hr) as (text & Ht & _).
      rewrite Ht, execute_catch_run in Hrun. injection Hrun as <- <-.
      discriminate.
  - rewrite execute_try_rejected, execute_catch_run in Hrun.
    injection Hrun as <- <-. discriminate.
Qed.

(** X4.  [claude_code_status] is a lookup that leaves the bridge as it
    is.  Right after a call has completed with a truthy token it gives a
    record with that token, counting one message more than the record the
    user had when the call was resumed after its [await] (one, when there
    was none then); for an uninterrupted call that is one more than before
    the call.  Right after [claude_code_clear_session] it gives [null]. *)
Theorem status_follows_execute_and_clear (userId : string) :
  (forall w, claude_code_status userId w = (Normal (sessions w !! userId), w))
  /\ (forall k settled w r w' token,
        s_userId k = userId ->
        execute_end k settled w = (Normal r, w') ->
        ClaudeCodeResult.sessionId r = Some token ->
        truthy token = true ->
        exists info,
          claude_code_status userId w' = (Normal (Some info), w')
          /\ SessionInfo.sessionId info = token
          /\ SessionInfo.messageCount info
             = match sessions w !! userId with
               | Some old => (SessionInfo.messageCount old + 1)%Z
               | None => 1%Z
               end)
  /\ (forall (exec : Exec) prompt options w r w' token,
        claude_code_execute exec prompt userId options w = (Normal r, w') ->
        ClaudeCodeResult.sessionId r = Some token ->
        truthy token = true ->
        exists info,
          claude_code_status userId w' = (Normal (Some info), w')
          /\ SessionInfo.sessionId info = token
          /\ SessionInfo.messageCount info
             = match sessions w !! userId with
               | Some old => (SessionInfo.messageCount old + 1)%Z
               | None => 1%Z
               end)
  /\ (forall w present w',
        claude_code_clear_session userId w = (Normal present, w') ->
        claude_code_status userId w' = (Normal None, w')).
Proof.
  assert (Hend : forall k settled w r w' token,
             s_userId k = userId ->
             execute_end k settled w = (Normal r, w') ->
             ClaudeCodeResult.sessionId r = Some token ->
             truthy token = true ->
             exists info,
               claude_code_status userId w' = (Normal (Some info), w')
               /\ SessionInfo.sessionId info = token
               /\ SessionInfo.messageCount info
                  = match sessions w !! userId with
                    | Some old => (SessionInfo.messageCount old + 1)%Z
                    | None => 1%Z
                    end).
  { intros k settled w r w' token Hk Hrun Hsid Htok.
    apply (execute_end_with_token _ _ _ _ _ token) in Hrun; [|exact Hsid|exact Htok].
    rewrite Hk in Hrun. subst w'.
    eexists. split; [|split].
    + unfold claude_code_status, get. cbn. rewrite lookup_insert_eq. reflexivity.
    + unfold next_session. destruct (sessions w !! userId); reflexivity.
    + unfold next_session. cbn. destruct (sessions w !! userId); reflexivity. }
  split; [reflexivity|]. split; [exact Hend|]. split.
  - intros exec prompt options w r w' token Hrun Hsid Htok.
    destruct (command w prompt userId options) as [cmd|e] eqn:Hcmd.
    + rewrite (claude_code_execute_run _ _ _ _ _ cmd Hcmd) in Hrun.
      exact (Hend {| s_userId := userId; s_startTime := clock w; s_cmd := cmd;
                     s_execOptions := exec_options (process_env w) options |}
               _ _ _ _ token eq_refl Hrun Hsid Htok).
    + rewrite (claude_code_execute_throws _ _ _ _ _ e Hcmd) in Hrun. discriminate.
  - intros w present w' Hclear. unfold claude_code_clear_session in Hclear.
    cbv [mbind M_bind get modify] in Hclear. injection Hclear as _ <-.
    unfold claude_code_status, get. cbn. rewrite lookup_delete_eq. reflexivity.
Qed.

End Status.

Lemma status_follows_execute_and_clear_witness :
  exists info,
    claude_code_status "u1" after_first_call = (Normal (Some info), after_first_call)
    /\ SessionInfo.sessionId info = VString "s-1"
    /\ SessionInfo.messageCount info = 1%Z.
Proof.
  exact (proj1 (proj2 (proj2 (status_follows_execute_and_clear (H := example_parse) "u1")))
           exec_done "create a file report.txt" ExecuteOptions.empty (initial 0 ∅)
           _ after_first_call (VString "s-1") eq_refl eq_refl eq_refl).
Defined.

Section InFlight.
Context `{JsonParser}.


End InFlight.


(** ** Invariants of the reachable states *)

Lemma claude_code_cancel_frame userId w c w' :
  claude_code_cancel userId w = (c, w') ->
  sessions w' = sessions w /\ clock w' = clock w /\ spawned w' = spawned w.
Proof.
  unfold claude_code_cancel. cbv [mbind M_bind get modify].
  destruct (activeProcesses w !! userId); intros [= _ <-]; repeat split.
Qed.

Lemma session_ok_later now later info :
  (now <= later)%Z -> session_ok now info -> session_ok later info.
Proof. unfold session_ok. intros Hle (? & ? & ? & ?). repeat split; try assumption; lia. Qed.

Lemma next_session_ok existing token now :
  truthy token = true ->
  (forall old, existing = Some old -> session_ok now old) ->
  session_ok now (next_session existing token now).
Proof.
  intros Htok Hold. unfold next_session, session_ok.
  destruct existing as [old|]; cbn.
  - destruct (Hold old eq_refl) as (_ & Hc & Hs & Hl). repeat split; try assumption; lia.
  - repeat split; try assumption; lia.
Qed.

(** The state the theorems of this part are shown at: the call of [u1]
    has completed (and a cancellation was tried meanwhile). *)
Lemma one_call_completed_reachable : reachable (H := example_parse) one_call_completed.
Proof.
  apply (reachable_step one_call_in_flight).
  - apply (reachable_step {| bridge := initial 0 ∅; awaiting := [] |}).
    + apply reachable_initial.
    + apply (step_execute_begin (H := example_parse)
               {| bridge := initial 0 ∅; awaiting := [] |}
               "create a file report.txt" "u1" ExecuteOptions.empty first_call).
      reflexivity.
  - apply (step_execute_end (H := example_parse) one_call_in_flight 0 first_call
             (Resolved done_s1 "")
             (Normal {| ClaudeCodeResult.success := true;
                        ClaudeCodeResult.output := VString "done";
                        ClaudeCodeResult.sessionId := Some (VString "s-1");
                        ClaudeCodeResult.error := None;
                        ClaudeCodeResult.executionTime := Some 0%Z |})).
    + reflexivity.
    + reflexivity.
Defined.

Section Reachable.
Context `{JsonParser}.

(** X6.  In every reachable state of the bridge, every session record
    holds a truthy token, counts at least one message, and has its times
    in order: started no later than last active, last active no later
    than now. *)
Theorem sessions_stay_well_formed s userId info :
  reachable s ->
  sessions (bridge s) !! userId = Some info ->
  session_ok (clock (bridge s)) info.
Proof.
  intros Hreach. revert userId info.
  induction Hreach as [t0 env | s s' _ IH Hstep]; intros userId info Hlook.
  - cbn in Hlook. rewrite lookup_empty in Hlook. discriminate.
  - destruct Hstep as [s prompt u options k w' Hb
                      | s prompt u options e w' Hb
                      | s i k settled c w' _ He
                      | s u c w' Hs
                      | s u c w' Hc
                      | s u c w' Hc
                      | s elapsed Hpos]; cbn [bridge] in *.
    + destruct (execute_begin_frame _ _ _ _ _ _ Hb) as (Hses & _ & _ & Hclk & _).
      rewrite Hses in Hlook. rewrite Hclk. apply (IH userId info Hlook).
    + destruct (execute_begin_frame _ _ _ _ _ _ Hb) as (Hses & _ & _ & Hclk & _).
      rewrite Hses in Hlook. rewrite Hclk. apply (IH userId info Hlook).
    + destruct (execute_end_cases k settled (bridge s)) as (r & w1 & Hrun & Hcase).
      rewrite Hrun in He. injection He as _ <-.
      destruct Hcase as [-> | (_ & token & Htok & _ & ->)];
        [apply (IH userId info Hlook)|].
      cbn in Hlook |- *. apply lookup_insert_Some in Hlook as [[<- <-] | [_ Hlook]].
      * apply next_session_ok; [exact Htok|]. intros old Hold. apply (IH _ _ Hold).
      * apply (IH userId info Hlook).
    + injection Hs as _ <-. apply (IH userId info Hlook).
    + destruct (claude_code_cancel_frame _ _ _ _ Hc) as (Hses & Hclk & _).
      rewrite Hses in Hlook. rewrite Hclk. apply (IH userId info Hlook).
    + unfold claude_code_clear_session in Hc.
      cbv [mbind M_bind get modify] in Hc. injection Hc as _ <-.
      cbn in Hlook |- *. apply lookup_delete_Some in Hlook as [_ Hlook].
      apply (IH userId info Hlook).
    + cbn in Hlook |- *. apply (session_ok_later (clock (bridge s))); [lia|].
      apply (IH userId info Hlook).
Qed.

(** X7.  In every reachable state of the bridge, every call of [exec]
    that was ever issued runs [claude -p] under the bounds of the skill:
    the fixed output buffer of 10 MB, a time-out that is not zero, and an
    environment in which [CLAUDE_CODE_OUTPUT_FORMAT] is [json], whatever
    the caller's options and the ambient environment are. *)
Theorem every_call_is_bounded s :
  reachable s -> Forall bounded_call (spawned (bridge s)).
Proof.
  induction 1 as [t0 env | s s' _ IH Hstep]; [constructor|].
  destruct Hstep as [s prompt u options k w' Hb
                    | s prompt u options e w' Hb
                    | s i k settled c w' _ He
                    | s u c w' Hs
                    | s u c w' Hc
                    | s u c w' Hc
                    | s elapsed Hpos]; cbn [bridge] in *.
  - rewrite execute_begin_cases in Hb.
    destruct (command (bridge s) prompt u options) as [cmd|e] eqn:Hcmd;
      [|discriminate].
    injection Hb as _ <-. cbn [spawned add_spawned].
    apply Forall_app. split; [exact IH|]. constructor; [|constructor].
    unfold bounded_call. cbn [fst snd]. split; [|split; [reflexivity|split]].
    + destruct (command_shape (bridge s) prompt u options cmd Hcmd) as (rest & ->).
      reflexivity.
    + cbn. destruct (ExecuteOptions.timeout options) as [[|t]|]; try discriminate.
      destruct (Z.eqb_spec t 0); [discriminate | assumption].
    + cbn. apply lookup_insert_eq.
  - rewrite execute_begin_cases in Hb.
    destruct (command (bridge s) prompt u options); [discriminate|].
    injection Hb as _ <-. exact IH.
  - destruct (execute_end_total k settled (bridge s))
      as (r & w1 & Hrun & _ & _ & _ & Hsp & _).
    rewrite Hrun in He. injection He as _ <-. rewrite Hsp. exact IH.
  - injection Hs as _ <-. exact IH.
  - destruct (claude_code_cancel_frame _ _ _ _ Hc) as (_ & _ & Hsp).
    rewrite Hsp. exact IH.
  - unfold claude_code_clear_session in Hc.
    cbv [mbind M_bind get modify] in Hc. injection Hc as _ <-. exact IH.
  - exact IH.
Qed.

End Reachable.

Lemma sessions_stay_well_formed_witness :
  session_ok 0 {| SessionInfo.sessionId := VString "s-1";
                  SessionInfo.startedAt := 0%Z;
                  SessionInfo.lastActivity := 0%Z;
                  SessionInfo.messageCount := 1%Z |}.
Proof.
  exact (sessions_stay_well_formed (H := example_parse) one_call_completed "u1" _
           one_call_completed_reachable eq_refl).
Defined.

Lemma every_call_is_bounded_witness :
  Forall bounded_call
    [("claude -p " +:+ quoted "create a file report.txt" +:+ default_tools_arg,
      exec_options ∅ ExecuteOptions.empty)].
Proof.
  exact (every_call_is_bounded (H := example_parse) one_call_completed
           one_call_completed_reachable).
Defined.

(** ** The output of a successful call *)

Lemma or_else_falsy a b : truthy (or_else a b) = false -> or_else a b = b.
Proof. unfold or_else. destruct (truthy a) eqn:Ha; [congruence | reflexivity]. Qed.

Section Output.
Context `{JsonParser}.

Lemma or_else_chain a b c d :
  or_else (or_else (or_else a b) c) d
  = if truthy a then a else if truthy b then b else if truthy c then c else d.
Proof.
  unfold or_else.
  destruct (truthy a) eqn:Ha; cbv iota; [rewrite !Ha; reflexivity|].
  destruct (truthy b) eqn:Hb; cbv iota; [rewrite !Hb; reflexivity|].
  destruct (truthy c) eqn:Hc; cbv iota; rewrite ?Hc; reflexivity.
Qed.

(** X8.  The output of a successful call is the first truthy one of the
    fields [result], [content] and [response] of the reply and, failing
    these, the raw standard output; so it is falsy only when the
    subprocess printed nothing at all, and then it is the empty string.  *)
Theorem success_output_is_empty_only_for_silence k settled w r w' :
  execute_end k settled w = (Normal r, w') ->
  ClaudeCodeResult.success r = true ->
  exists stdout stderr,
    settled = Resolved stdout stderr
    /\ ClaudeCodeResult.output r
       = (if truthy (property (parsed_result stdout) "result")
          then property (parsed_result stdout) "result"
          else if truthy (property (parsed_result stdout) "content")
          then property (parsed_result stdout) "content"
          else if truthy (property (parsed_result stdout) "response")
          then property (parsed_result stdout) "response"
          else VString stdout)
    /\ (truthy (ClaudeCodeResult.output r) = true
        \/ stdout = "" /\ ClaudeCodeResult.output r = VString "").
Proof.
  intros Hrun Hs. unfold execute_end, try_catch in Hrun.
  destruct settled as [stdout stderr | e].
  - exists stdout, stderr. split; [reflexivity|].
    destruct (readable (parsed_result stdout)) eqn:Hr.
    + destruct (execute_try_readable k stdout stderr w Hr) as (w2 & _ & Ht).
      rewrite Ht in Hrun. injection Hrun as <- _. cbn [ClaudeCodeResult.output].
      split.
      * apply or_else_chain.
      * match goal with
        | |- truthy (or_else ?a ?b) = true \/ _ =>
            destruct (truthy (or_else a b)) eqn:Hout; [left; reflexivity|];
            right; rewrite (or_else_falsy a b Hout) in Hout |- *
        end.
        cbn in Hout. apply negb_false_iff, String.eqb_eq in Hout. subst stdout.
        split; reflexivity.
    + destruct (execute_try_unreadable k stdout stderr w Hr) as (text & Ht & _).
      rewrite Ht, execute_catch_run in Hrun. injection Hrun as <- _. discriminate.
  - rewrite execute_try_rejected, execute_catch_run in Hrun.
    injection Hrun as <- _. discriminate.
Qed.

(** X9.  When the standard output is JSON but no object and not [null]
    (a number, a string, a boolean, an array), the call succeeds with the
    raw standard output as its output, reports no token, and leaves the
    bridge as it was. *)
Theorem scalar_reply_gives_raw_output k stdout stderr w v :
  JSON_parse stdout = Some v ->
  readable v = true ->
  (forall props, v <> VObject props) ->
  execute_end k (Resolved stdout stderr) w =
    (Normal {| ClaudeCodeResult.success := true;
               ClaudeCodeResult.output := VString stdout;
               ClaudeCodeResult.sessionId := Some VUndefined;
               ClaudeCodeResult.error := None;
               ClaudeCodeResult.executionTime := Some (clock w - s_startTime k)%Z |},
     w).
Proof.
  intros Hparse Hr Hobj.
  assert (Hres : parsed_result stdout = v).
  { unfold parsed_result. rewrite Hparse. reflexivity. }
  assert (Hprop : forall key, property v key = VUndefined).
  { intros key. destruct v; try reflexivity. exfalso. apply (Hobj props). reflexivity. }
  rewrite <- Hres in Hr.
  destruct (execute_try_readable k stdout stderr w Hr) as (w' & Hu & Ht).
  rewrite update_session_effect in Hu.
  unfold execute_end, try_catch. rewrite Ht. clear Ht.
  unfold extracted_token in Hu |- *. rewrite Hres in Hu |- *.
  rewrite (Hprop "sessionId"), (Hprop "session_id") in Hu |- *.
  rewrite (Hprop "result"), (Hprop "content"), (Hprop "response").
  cbn in Hu. injection Hu as <-. reflexivity.
Qed.

End Output.

Lemma success_output_is_empty_only_for_silence_witness :
  exists stdout stderr,
    Resolved done_s1 "" = Resolved stdout stderr
    /\ VString "done"
       = (if truthy (property (parsed_result (H := example_parse) stdout) "result")
          then property (parsed_result (H := example_parse) stdout) "result"
          else if truthy (property (parsed_result (H := example_parse) stdout) "content")
          then property (parsed_result (H := example_parse) stdout) "content"
          else if truthy (property (parsed_result (H := example_parse) stdout) "response")
          then property (parsed_result (H := example_parse) stdout) "response"
          else VString stdout)
    /\ (truthy (VString "done") = true
        \/ stdout = "" /\ VString "done" = VString "").
Proof.
  exact (success_output_is_empty_only_for_silence (H := example_parse) second_call
           (Resolved done_s1 "") after_first_call
           {| ClaudeCodeResult.success := true;
              ClaudeCodeResult.output := VString "done";
              ClaudeCodeResult.sessionId := Some (VString "s-1");
              ClaudeCodeResult.error := None;
              ClaudeCodeResult.executionTime := Some 0%Z |}
           _ eq_refl eq_refl).
Defined.

Lemma scalar_reply_gives_raw_output_witness :
  execute_end (H := scalar_parse) second_call (Resolved "42" "") after_first_call =
    (Normal {| ClaudeCodeResult.success := true;
               ClaudeCodeResult.output := VString "42";
               ClaudeCodeResult.sessionId := Some VUndefined;
               ClaudeCodeResult.error := None;
               ClaudeCodeResult.executionTime := Some 0%Z |},
     after_first_call).
Proof.
  refine (scalar_reply_gives_raw_output (H := scalar_parse) second_call "42" ""
            after_first_call (VNumber "42") eq_refl eq_refl _).
  intros props. discriminate.
Defined.

(** ** The sanitizer and the escaping on every prompt *)

Lemma strip_sublist m skip s :
  sublist (list_ascii_of_string (strip m skip s)) (list_ascii_of_string s).
Proof.
  revert skip. induction s as [|c s IH]; intros skip; [constructor|].
  cbn [strip list_ascii_of_string]. destruct skip as [|k].
  - destruct (m (String c s)) as [[|k]|].
    + cbn [list_ascii_of_string]. apply sublist_skip, IH.
    + apply sublist_cons, IH.
    + cbn [list_ascii_of_string]. apply sublist_skip, IH.
  - apply sublist_cons, IH.
Qed.

Lemma list_ascii_length s : length (list_ascii_of_string s) = String.length s.
Proof. induction s as [|c s IH]; cbn; [reflexivity | rewrite IH; reflexivity]. Qed.

Lemma remove_all_inert m s : inert m s -> remove_all m s = s.
Proof.
  intros Hin. unfold remove_all.
  rewrite <- (append_empty_r s) at 1. rewrite strip_inert by exact Hin.
  apply append_empty_r.
Qed.

(** X10.  [sanitizePrompt] only deletes: for every prompt, the sanitized
    prompt consists of characters of the prompt in their order, so it
    inserts nothing, reorders nothing, and is never longer than the
    prompt. *)
Theorem sanitize_only_deletes (prompt : string) :
  sublist (list_ascii_of_string (sanitizePrompt prompt)) (list_ascii_of_string prompt)
  /\ String.length (sanitizePrompt prompt) <= String.length prompt.
Proof.
  assert (Hsub : sublist (list_ascii_of_string (sanitizePrompt prompt))
                         (list_ascii_of_string prompt)).
  { unfold sanitizePrompt, remove_all.
    etrans; [apply strip_sublist|]. etrans; apply strip_sublist. }
  split; [exact Hsub|].
  rewrite <- !list_ascii_length. apply sublist_length, Hsub.
Qed.

(** X11.  A prompt without a dash passes the sanitizer unchanged: all
    three patterns begin with a dash. *)
Theorem sanitize_keeps_prompt_without_dash (prompt : string) :
  mem_char DASH prompt = false -> sanitizePrompt prompt = prompt.
Proof.
  intros Hfree. unfold sanitizePrompt.
  rewrite (remove_all_inert (match_ci "--allowedTools") prompt)
    by (apply needs_dash_inert; [apply match_ci_needs_dash | exact Hfree]).
  rewrite (remove_all_inert (match_ci "--dangerously") prompt)
    by (apply needs_dash_inert; [apply match_ci_needs_dash | exact Hfree]).
  apply remove_all_inert, needs_dash_inert;
    [apply match_dash_p_ws_needs_dash | exact Hfree].
Qed.

Lemma sanitize_keeps_prompt_without_dash_witness :
  sanitizePrompt "what's in that file now" = "what's in that file now".
Proof.
  exact (sanitize_keeps_prompt_without_dash "what's in that file now" eq_refl).
Defined.

(** X12.  Whatever text [escapeForShell] is given, the shell reads the
    escaped text between double quotes as exactly one word: it finds the
    closing quote where the skill put it, starts no expansion on the way,
    and leaves what follows the quote untouched.  The word is the text
    itself when the text has no exclamation mark. *)
Theorem escaped_text_is_one_shell_word (str rest : string) :
  exists word,
    sh_dquoted (escapeForShell str +:+ DQ +:+ rest) = Some (word, rest)
    /\ String.length str <= String.length word
    /\ (mem_char BANG str = false -> word = str).
Proof.
  exists (replace_char BANG (String BACKSLASH (chr BANG)) str).
  split; [apply escaped_prompt_received|]. split.
  - induction str as [|c str IH]; [reflexivity|].
    cbn [replace_char]. destruct (Ascii.eqb c BANG).
    + change (S (String.length str)
              <= S (S (String.length
                         (replace_char BANG (String BACKSLASH (chr BANG)) str)))).
      lia.
    + cbn [String.length]. lia.
  - intros Hfree. apply replace_char_absent, Hfree.
Qed.

(** X13.  In every command the skill builds, the shell reads the word
    after [claude -p] as the sanitized prompt (with a backslash before
    each exclamation mark) and nothing more: what follows that word is the
    output format and the tools argument of the skill, so no part of the
    prompt is read as an option of the command. *)
Theorem prompt_is_the_p_argument (w : Bridge) prompt userId options :
  let reads_prompt (cmd : string) :=
    exists body rest,
      cmd = "claude -p " +:+ DQ +:+ body
      /\ sh_dquoted body =
         Some (replace_char BANG (String BACKSLASH (chr BANG)) (sanitizePrompt prompt),
               " --output-format json --allowedTools "
               +:+ quoted (join "," (default DEFAULT_TOOLS
                                       (ExecuteOptions.allowedTools options)))
               +:+ rest) in
  reads_prompt (base_command (sanitizePrompt prompt) options)
  /\ (forall cmd, command w prompt userId options = Normal cmd -> reads_prompt cmd).
Proof.
  intros reads_prompt.
  assert (Hreads : forall cmd rest,
             cmd = "claude -p " +:+ quoted (escapeForShell (sanitizePrompt prompt))
                   +:+ " --output-format json --allowedTools "
                   +:+ quoted (join "," (default DEFAULT_TOOLS
                                           (ExecuteOptions.allowedTools options)))
                   +:+ rest ->
             reads_prompt cmd).
  { intros cmd rest ->. eexists _, rest. split.
    - unfold quoted at 1. rewrite !append_assoc. reflexivity.
    - apply escaped_prompt_received. }
  split.
  - destruct (base_command_shape (sanitizePrompt prompt) options) as (rest & Hshape).
    exact (Hreads _ rest Hshape).
  - intros cmd Hcmd.
    destruct (command_shape w prompt userId options cmd Hcmd) as (rest & Hshape).
    exact (Hreads _ rest Hshape).
Qed.

(** ** The options of a call *)

(** X15.  The appended system prompt: a text that is missing or empty
    adds nothing to the command; any other text is added, escaped and
    between double quotes, behind [--append-system-prompt] at the end of
    the command before the session clause, and the shell reads it there
    as exactly one word. *)
Theorem system_prompt_is_one_word (cleanPrompt : string) (options : ExecuteOptions.t) :
  let plain :=
    {| ExecuteOptions.newSession := ExecuteOptions.newSession options;
       ExecuteOptions.workingDir := ExecuteOptions.workingDir options;
       ExecuteOptions.allowedTools := ExecuteOptions.allowedTools options;
       ExecuteOptions.timeout := ExecuteOptions.timeout options;
       ExecuteOptions.appendSystemPrompt := None |} in
  match ExecuteOptions.appendSystemPrompt options with
  | Some "" | None => base_command cleanPrompt options = base_command cleanPrompt plain
  | Some text =>
      base_command cleanPrompt options
      = base_command cleanPrompt plain +:+ " --append-system-prompt " +:+ DQ
        +:+ (escapeForShell text +:+ DQ)
      /\ exists word,
           sh_dquoted (escapeForShell text +:+ DQ) = Some (word, "")
           /\ (mem_char BANG text = false -> word = text)
  end.
Proof.
  intros plain. unfold base_command.
  destruct (ExecuteOptions.appendSystemPrompt options) as [[|c text]|];
    [reflexivity | | reflexivity].
  split; [reflexivity|].
  exists (replace_char BANG (String BACKSLASH (chr BANG)) (String c text)).
  split.
  - rewrite <- (append_empty_r DQ) at 1. apply escaped_prompt_received.
  - intros Hfree. apply replace_char_absent, Hfree.
Qed.

(** A text without double quote, dollar sign, backtick and backslash is
    read by the shell, between double quotes, as it stands. *)
Lemma sh_dquoted_plain (s rest : string) :
  mem_char DQUOTE s = false -> mem_char DOLLAR s = false ->
  mem_char BACKTICK s = false -> mem_char BACKSLASH s = false ->
  sh_dquoted (s +:+ DQ +:+ rest) = Some (s, rest).
Proof.
  induction s as [|c s IH]; [reflexivity|]. cbn [mem_char].
  intros [Hq Hq']%orb_false_elim [Hd Hd']%orb_false_elim
         [Ht Ht']%orb_false_elim [Hb Hb']%orb_false_elim.
  change (sh_dquoted (String c (s +:+ DQ +:+ rest)) = Some (String c s, rest)).
  cbn [sh_dquoted]. rewrite (Ascii.eqb_sym c DQUOTE), Hq,
    (Ascii.eqb_sym c DOLLAR), Hd, (Ascii.eqb_sym c BACKTICK), Ht,
    (Ascii.eqb_sym c BACKSLASH), Hb.
  cbn [orb]. rewrite (IH Hq' Hd' Ht' Hb'). reflexivity.
Qed.

(** X16.  The tools argument is not escaped: it is the names joined by
    commas as they are.  When the joined names hold no double quote,
    dollar sign, backtick or backslash, as those of the default list do,
    the shell reads the word behind [--allowedTools] back as the
    comma-joined list; what follows it is what the skill appended. *)
Theorem plain_tools_are_read_back (w : Bridge) prompt userId options :
  let tools := default DEFAULT_TOOLS (ExecuteOptions.allowedTools options) in
  let reads_tools (cmd : string) :=
    exists tail rest,
      cmd =
        "claude -p " +:+ quoted (escapeForShell (sanitizePrompt prompt))
        +:+ " --output-format json --allowedTools " +:+ DQ +:+ tail
      /\ sh_dquoted tail = Some (join "," tools, rest) in
  mem_char DQUOTE (join "," tools) = false ->
  mem_char DOLLAR (join "," tools) = false ->
  mem_char BACKTICK (join "," tools) = false ->
  mem_char BACKSLASH (join "," tools) = false ->
  reads_tools (base_command (sanitizePrompt prompt) options)
  /\ (forall cmd, command w prompt userId options = Normal cmd -> reads_tools cmd).
Proof.
  intros tools reads_tools Hq Hd Ht Hb.
  assert (Hreads : forall cmd rest,
             cmd = "claude -p " +:+ quoted (escapeForShell (sanitizePrompt prompt))
                   +:+ " --output-format json --allowedTools "
                   +:+ quoted (join "," tools) +:+ rest ->
             reads_tools cmd).
  { intros cmd rest ->. exists (join "," tools +:+ DQ +:+ rest), rest. split.
    - unfold quoted at 2. rewrite !append_assoc. reflexivity.
    - apply sh_dquoted_plain; assumption. }
  split.
  - destruct (base_command_shape (sanitizePrompt prompt) options) as (rest & Hshape).
    exact (Hreads _ rest Hshape).
  - intros cmd Hcmd.
    destruct (command_shape w prompt userId options cmd Hcmd) as (rest & Hshape).
    exact (Hreads _ rest Hshape).
Qed.

Lemma plain_tools_are_read_back_witness :
  exists tail rest,
    s_cmd second_call =
      "claude -p " +:+ quoted "what's in that file now"
      +:+ " --output-format json --allowedTools " +:+ DQ +:+ tail
    /\ sh_dquoted tail
       = Some ("Read,Write,Edit,Bash,Glob,Grep,WebFetch,WebSearch", rest).
Proof.
  exact (proj2 (plain_tools_are_read_back after_first_call "what's in that file now"
                  "u1" ExecuteOptions.empty eq_refl eq_refl eq_refl eq_refl)
           (s_cmd second_call) eq_refl).
Defined.

